(** * PVcircuit: the single-junction model of [pvcircuit/junction.py]

    A shallow embedding of the numerical core of class [Junction]: the
    derived quantities ([TK], [Vth], [Jdb], [J0], [Jphoto], [Jem]), the
    current evaluators ([Jmultidiodes], [JshuntRBB], [Jparallel]) and the
    two solvers ([Vdiode], [Vmid]) wrapped around [scipy.optimize.brentq].

    The Python code computes with [numpy.float64].  The embedding is written
    once, over an interface [NpFloat] of the float operations the source
    uses, and is read at two instances:
    - [Binary64]: IEEE-754 binary64 (Rocq's primitive floats), the numbers
      the program really computes with;
    - [Exact]: the same operations without rounding, on the real numbers
      extended with the two infinities and NaN.
    Statements about control flow, exceptions and the shape of the formulas
    are proved for every instance; statements of real analysis (limits,
    exact inverses) are proved at [Exact]; concrete runs are evaluated at
    [Binary64].

    Conventions.  The float attributes are [numpy.float64], as [__init__]
    and [set] make them.  The parameters of [RBB_dict], as [set(RBB=...)]
    stores them, and the voltages that [brentq] hands to the function are
    built-in floats of Python; this matters for [**] alone, which is
    Python's between two built-in floats and numpy's otherwise.  Arrays are
    one-dimensional, of dtype [float64] or [int64] by the list that
    [np.array] is given.  numpy's default floating-point error handling is
    in force: an overflow, a division by zero or an invalid operation of
    numpy warns and yields an infinity or NaN, it does not raise; warnings
    are not turned into errors.  Exceptions are Python's: a function that
    may raise returns a [result].

    The methods that write the object ([__init__], [set], [copy],
    [_J0init] as the constructor calls it) and [__str__] are embedded over
    an [object] of attribute values and a [heap] of arrays, so that two
    objects can share an array; the numerical methods are applied to the
    [view] of an object.  [controls], which builds an ipywidgets panel, is
    not embedded. *)

From Stdlib Require Import String.
From Stdlib Require Import ZArith List Bool Lia.
From Stdlib Require Import Floats Uint63.
From Stdlib Require Import Reals Lra Machin.
Import ListNotations.

Set Implicit Arguments.
Set Warnings "-inexact-float".

(** ** Python results: a value or a raised exception *)

Inductive exn : Set :=
| TypeError
| ValueError
| RuntimeError
| ZeroDivisionError
| OverflowError.

Inductive result (A : Type) : Type :=
| Ok (a : A)
| Raise (e : exn).

Arguments Ok {A} a.
Arguments Raise {A} e.

Definition bind {A B : Type} (r : result A) (k : A -> result B) : result B :=
  match r with
  | Ok a => k a
  | Raise e => Raise e
  end.

Notation "x <- r ;; k" := (bind r (fun x => k))
  (at level 61, r at next level, right associativity).

(** [try: body / except: handler] with a bare [except]. *)
Definition try_except {A : Type} (body : result A) (handler : A) : A :=
  match body with
  | Ok a => a
  | Raise _ => handler
  end.

(** ** The float operations used by the source *)

Class NpFloat (F : Type) : Type := {
  fadd : F -> F -> F;
  fsub : F -> F -> F;
  fmul : F -> F -> F;
  fdiv : F -> F -> F;
  fneg : F -> F;
  fabs : F -> F;
  feqb : F -> F -> bool;          (* == *)
  fltb : F -> F -> bool;          (* <  *)
  fleb : F -> F -> bool;          (* <= *)
  isfinite : F -> bool;           (* math.isfinite *)
  lit : Z -> Z -> F;              (* the decimal literal m * 10^e *)
  np_nan : F;                     (* np.nan *)
  np_exp : F -> F;                (* np.exp *)
  np_power : F -> F -> F;         (* ** on numpy.float64: C's pow *)
  math_floor : F -> F;            (* C's floor *)
  math_cos : F -> F;              (* C's cos *)
  math_sin : F -> F;              (* C's sin *)
  astype_int64 : F -> Z;          (* the cast of a float64 to int64 *)
  astype_float64 : Z -> F;        (* the cast of an int64 to float64 *)
  (* numpy and scipy.constants *)
  np_pi : F;
  con_k : F;                      (* Boltzmann constant  [J/K] *)
  con_e : F;                      (* elementary charge   [C] *)
  con_h : F;                      (* Planck constant     [J s] *)
  con_c : F;                      (* speed of light      [m/s] *)
  con_zero_Celsius : F            (* 273.15 *)
}.

Declare Scope np_scope.
Delimit Scope np_scope with np.
Notation "x + y" := (fadd x y) : np_scope.
Notation "x - y" := (fsub x y) : np_scope.
Notation "x * y" := (fmul x y) : np_scope.
Notation "x / y" := (fdiv x y) : np_scope.
Notation "- x" := (fneg x) : np_scope.
Notation "x ** y" := (np_power x y)
  (at level 30, right associativity) : np_scope.
Notation "x == y" := (feqb x y) (at level 70, no associativity) : np_scope.
Notation "x != y" := (negb (feqb x y))
  (at level 70, no associativity) : np_scope.
Notation "x <? y" := (fltb x y) (at level 70, no associativity) : np_scope.
Notation "x <=? y" := (fleb x y) (at level 70, no associativity) : np_scope.
Notation "x >? y" := (fltb y x) (at level 70, no associativity) : np_scope.

(** A literal with an integral value, such as [2.] or [1000]. *)
Definition fl {F : Type} `{NpFloat F} (z : Z) : F := lit z 0.

(** A real number at run time is a built-in [float] of Python or a
    [numpy.float64].  They hold the same numbers; they differ in what [**]
    does: between two built-in floats it follows Python's rules
    ([float_pow] below), as soon as a [numpy.float64] takes part it is
    numpy's, and the result is a [numpy.float64]. *)
Inductive pynumber (F : Type) : Type :=
| py_float (x : F)
| np_float64 (x : F).

Arguments py_float {F} x.
Arguments np_float64 {F} x.

Definition float_of {F : Type} (v : pynumber F) : F :=
  match v with
  | py_float x | np_float64 x => x
  end.

(** What a current evaluates to: a [numpy.float64], or a
    [numpy.complex128] once a complex power took part. *)
Inductive npscalar (F : Type) : Type :=
| float64 (x : F)
| complex128 (re im : F).

Arguments float64 {F} x.
Arguments complex128 {F} re im.

(** What an attribute or a property holds: a one-dimensional
    [numpy.ndarray] of floats, or a scalar float. *)
Inductive npvalue (F : Type) : Type :=
| ndarray (a : list F)
| scalar (x : F).

Arguments ndarray {F} a.
Arguments scalar {F} x.

(** [RBB_dict], by its ['method'] key, as [Junction.set] builds it: the
    parameters are built-in floats of Python. *)
Inductive RBB (F : Type) : Type :=
| RBB_None
| RBB_JFG (mrb J0rb Vrb : F)
| RBB_bishop (mrb avalanche Vrb : F)
| RBB_pvmismatch.

Arguments RBB_None {F}.
Arguments RBB_JFG {F} mrb J0rb Vrb.
Arguments RBB_bishop {F} mrb avalanche Vrb.
Arguments RBB_pvmismatch {F}.

(** The attributes of a [Junction] that the numerical core reads. *)
Record Junction (F : Type) : Type := mkJunction {
  Eg : F;               (* [eV] junction band gap *)
  TC : F;               (* [C] junction temperature *)
  Jext : F;             (* [A/cm2] photocurrent density *)
  Gsh : F;              (* [mho] shunt conductance *)
  Rser : F;             (* [ohm] series resistance *)
  lightarea : F;        (* [cm2] illuminated junction area *)
  totalarea : F;        (* [cm2] total junction area *)
  pn : Z;               (* p-on-n=1 or n-on-p=-1 *)
  beta : F;             (* LC parameter *)
  gamma : F;            (* PL parameter *)
  JLC : F;              (* LC current from other cell *)
  n : npvalue F;        (* diode ideality list *)
  J0ratio : npvalue F;  (* diode J0/Jdb^(1/n) ratio list *)
  RBB_dict : RBB F
}.

Section Model.

Context {F : Type} `{NpFloat F}.

Local Open Scope np_scope.

(** *** Module constants *)

Definition k_q : F := con_k / con_e.
Definition DB_PREFIX : F :=
  fl 2 * np_pi * con_e * (con_k / con_h) ** fl 3 / con_c ** fl 2 / lit 1 4.

Definition VLIM_REVERSE : F := fl 10.
Definition VLIM_FORWARD : F := fl 3.
Definition VTOL : F := lit 1 (-4).
Definition EPSREL : F := lit 1 (-15).
Definition MAXITER : Z := 1000.

Definition J0scale : F := fl 1000.

(** *** numpy helpers: iteration and element-wise arithmetic *)

(** [for x in v] and [zip(.., v)]: a scalar float is not iterable. *)
Definition iter (v : npvalue F) : result (list F) :=
  match v with
  | ndarray a => Ok a
  | scalar _ => Raise TypeError
  end.

(** [s op a] and [a op s] for a scalar [s] and an array [a]. *)
Definition np_scalar_left (op : F -> F -> F) (s : F) (a : list F) : list F :=
  map (fun x => op s x) a.
Definition np_scalar_right (op : F -> F -> F) (a : list F) (s : F) : list F :=
  map (fun x => op x s) a.

(** [a op b] for two arrays of the same size. *)
Fixpoint np_elementwise (op : F -> F -> F) (a b : list F) : list F :=
  match a, b with
  | x :: a', y :: b' => op x y :: np_elementwise op a' b'
  | _, _ => []
  end.

(** *** Derived quantities *)

Definition TK (TC : F) : F := TC + con_zero_Celsius.

Definition Jphoto (self : Junction F) : F :=
  Jext self * lightarea self / totalarea self + JLC self.

Definition Vth (self : Junction F) : F := k_q * TK (TC self).

Definition Jdb (self : Junction F) : F :=
  let EgkT := Eg self / Vth self in
  DB_PREFIX * TK (TC self) ** fl 3 * (EgkT * EgkT + fl 2 * EgkT + fl 2)
  * np_exp (- EgkT).

Definition J0 (self : Junction F) : npvalue F :=
  match n self, J0ratio self with
  | ndarray ns, ndarray rs =>
      if (length ns =? length rs)%nat then
        ndarray
          (np_scalar_right fdiv
             (np_elementwise fmul
                (np_scalar_left np_power (Jdb self * J0scale)
                   (np_scalar_left fdiv (fl 1) ns))
                rs)
             J0scale)
      else scalar np_nan     (* different sizes *)
  | _, _ => scalar np_nan    (* not numpy.ndarray *)
  end.

Definition set_J0ratio (self : Junction F) (v : npvalue F) : Junction F :=
  mkJunction (Eg self) (TC self) (Jext self) (Gsh self) (Rser self)
    (lightarea self) (totalarea self) (pn self) (beta self) (gamma self)
    (JLC self) (n self) v (RBB_dict self).

(** [_J0init] returns its status together with the updated junction. *)
Definition _J0init (self : Junction F) (J0ref : list F) : Z * Junction F :=
  match n self with
  | ndarray ns =>
      if (length ns =? length J0ref)%nat then
        (0%Z,
         set_J0ratio self
           (ndarray
              (np_elementwise fdiv
                 (np_scalar_left fmul J0scale J0ref)
                 (np_scalar_left np_power (Jdb self * J0scale)
                    (np_scalar_left fdiv (fl 1) ns)))))
      else (1%Z, self)       (* different sizes *)
  | scalar _ => (2%Z, self)  (* not numpy.ndarray *)
  end.

Definition Jem (self : Junction F) (Vmid : F) : F :=
  if Vmid >? fl 0 then
    let Jem := Jdb self * (np_exp (Vmid / Vth self) - fl 1) in
    Jem + gamma self * Jphoto self
  else fl 0.

Definition notdiode (self : Junction F) : result bool :=
  if (pn self =? 0)%Z then Ok true
  else
    js <- iter (J0 self) ;;
    Ok (fold_left fadd js (fl 0) == fl 0).

(** *** Python's and numpy's scalar arithmetic *)

Definition isnan (x : F) : bool := negb (x == x).
Definition isinf (x : F) : bool := negb (isfinite x) && (x == x).

(** [x ** y] for a negative built-in float [x] and a built-in float [y]
    that is not an integer: CPython's [complex_pow] on [x + 0j] and
    [y + 0j], that is [len * (cos phase + sin phase j)] with
    [len = pow(|x|, y)] and [phase = atan2(0., x) * y = pi * y]. *)
Definition complex_pow (x y : F) : result (npscalar F) :=
  let len := fabs x ** y in
  let phase := np_pi * y in
  let re := len * math_cos phase in
  let im := len * math_sin phase in
  if isinf re || isinf im then Raise OverflowError   (* complex exponentiation *)
  else Ok (complex128 re im).

(** [x ** y] for two built-in floats: CPython's [float_pow].  Where it
    returns a float, that float is C's [pow(x, y)] (for the special values
    as C99 gives them); it raises for a zero to a negative power and when
    [pow] overflows, and hands a negative base with a fractional exponent
    to [complex_pow]. *)
Definition float_pow (x y : F) : result (npscalar F) :=
  if y == fl 0 then Ok (float64 (fl 1))
  else if isnan x || isnan y || isinf y || isinf x then Ok (float64 (x ** y))
  else if x == fl 0 then
    if y <? fl 0 then Raise ZeroDivisionError
    else Ok (float64 (x ** y))
  else if (x <? fl 0) && (math_floor y != y) then complex_pow x y
  else
    let ix := x ** y in
    if isinf ix then Raise OverflowError else Ok (float64 ix).

(** [x ** y] where [x] was computed from [v] and built-in floats, and [y] is
    a built-in float: Python's power when [v] is a built-in float, numpy's
    when it is a [numpy.float64]. *)
Definition power (v : pynumber F) (x y : F) : result (npscalar F) :=
  match v with
  | py_float _ => float_pow x y
  | np_float64 _ => Ok (float64 (x ** y))
  end.

(** numpy's [+], [-] and [*] on two scalars: of two [float64] a [float64];
    otherwise both are taken as complex, a real [x] as [x + 0j]. *)
Definition as_complex (a : npscalar F) : F * F :=
  match a with
  | float64 x => (x, fl 0)
  | complex128 re im => (re, im)
  end.

Definition np_add (a b : npscalar F) : npscalar F :=
  match a, b with
  | float64 x, float64 y => float64 (x + y)
  | _, _ =>
      let '(ar, ai) := as_complex a in
      let '(br, bi) := as_complex b in
      complex128 (ar + br) (ai + bi)
  end.

Definition np_sub (a b : npscalar F) : npscalar F :=
  match a, b with
  | float64 x, float64 y => float64 (x - y)
  | _, _ =>
      let '(ar, ai) := as_complex a in
      let '(br, bi) := as_complex b in
      complex128 (ar - br) (ai - bi)
  end.

Definition np_mul (a b : npscalar F) : npscalar F :=
  match a, b with
  | float64 x, float64 y => float64 (x * y)
  | _, _ =>
      let '(ar, ai) := as_complex a in
      let '(br, bi) := as_complex b in
      complex128 (ar * br - ai * bi) (ar * bi + ai * br)
  end.

(** [np.isnan], and the float that [float()] makes of a scalar: of a
    [complex128] its real part (numpy warns that the imaginary part is
    discarded). *)
Definition np_isnan (a : npscalar F) : bool :=
  match a with
  | float64 x => isnan x
  | complex128 re im => isnan re || isnan im
  end.

Definition real_part (a : npscalar F) : F :=
  match a with
  | float64 x => x
  | complex128 re _ => re
  end.

(** *** Recombination and shunt/breakdown currents *)

(** One turn of the loop of [Jmultidiodes].  The arithmetic of
    [numpy.float64] signals overflow by a warning and an infinite result,
    it does not raise, so the body of the [try] is an [Ok]. *)
Definition Jmultidiodes_step (self : Junction F) (Vdiode : F)
    (Jrec : F) (d : F * F) : F :=
  let '(ideality_factor, saturation_current) := d in
  if (ideality_factor >? fl 0) && isfinite saturation_current then
    try_except
      (Ok (Jrec + saturation_current
                  * (np_exp (Vdiode / Vth self / ideality_factor) - fl 1)))
      Jrec
  else Jrec.

Definition Jmultidiodes (self : Junction F) (Vdiode : F) : result F :=
  ns <- iter (n self) ;;
  js <- iter (J0 self) ;;
  Ok (fold_left (Jmultidiodes_step self Vdiode) (combine ns js) (fl 0)).

(** [JshuntRBB(Vdiode)].  The voltage is a [numpy.float64] or, as
    [brentq] passes it, a built-in float; the parameters of [RBB_dict] are
    built-in floats.  Every product and sum has a [numpy.float64] operand
    ([self.Gsh], [self.Vth], [self.Jdb]) and is numpy's, but for the power
    of the bishop term, [(1. - Vdiode / Vrb) ** (-mrb)]: for a built-in
    [Vdiode] it is Python's, which raises or gives a complex number where
    numpy gives an infinity or NaN. *)
Definition JshuntRBB (self : Junction F) (Vdiode : pynumber F)
    : result (npscalar F) :=
  let V := float_of Vdiode in
  JRBB <-
    match RBB_dict self with
    | RBB_JFG mrb J0rb Vrb =>
        if (V <=? Vrb) && (mrb != fl 0) then
          Ok (float64
                (- J0rb * (Jdb self * fl 1000) ** (fl 1 / mrb) / fl 1000
                 * (np_exp (- V / Vth self / mrb) - fl 1)))
        else Ok (float64 (fl 0))
    | RBB_bishop mrb a Vrb =>
        if (V <=? fl 0) && (Vrb != fl 0) then
          p <- power Vdiode (fl 1 - V / Vrb) (- mrb) ;;
          Ok (np_mul (float64 (V * Gsh self * a)) p)
        else Ok (float64 (fl 0))
    | RBB_pvmismatch => Ok (float64 (fl 0))
    | RBB_None => Ok (float64 (fl 0))
    end ;;
  Ok (np_add (float64 (V * Gsh self)) JRBB).

(** *** The circuit equation and the two solvers *)

Definition Jparallel (self : Junction F) (Vdiode : pynumber F) (Jtot : F)
    : result (npscalar F) :=
  nd <- notdiode self ;;
  if nd then Ok (float64 Jtot)
  else
    JLED <- Jmultidiodes self (float_of Vdiode) ;;
    JRBB <- JshuntRBB self Vdiode ;;
    Ok (np_sub (float64 (Jtot - JLED)) JRBB).

(** [scipy.optimize.brentq(f, a, b, xtol, rtol, maxiter, full_output=False,
    disp=True)]: the root it returns, or the exception it raises (no sign
    change, no convergence, or an exception of [f]).  It calls [f] on
    built-in floats. *)
Variable brentq :
  (F -> result (npscalar F)) -> F -> F -> F -> F -> Z -> result F.

Definition Vdiode (self : Junction F) (Jdiode : F) : result F :=
  nd <- notdiode self ;;
  if nd then Ok (fl 0)
  else
    let Jtot := Jphoto self + Jdiode in
    Ok (try_except
          (brentq (fun v => Jparallel self (py_float v) Jtot)
             (- VLIM_REVERSE) VLIM_FORWARD VTOL EPSREL MAXITER)
          np_nan).

Definition _dV (self : Junction F) (Vmid : pynumber F) (Vtot : F)
    : result (npscalar F) :=
  J <- Jparallel self Vmid (Jphoto self) ;;
  let dV :=
    np_add (float64 (Vtot - float_of Vmid)) (np_mul J (float64 (Rser self))) in
  Ok dV.

Definition Vmid (self : Junction F) (Vtot : F) : result F :=
  nd <- notdiode self ;;
  if nd then Ok (fl 0)
  else
    Ok (try_except
          (brentq (fun v => _dV self (py_float v) Vtot)
             (- VLIM_REVERSE) VLIM_FORWARD VTOL EPSREL MAXITER)
          np_nan).

End Model.

(** ** IEEE-754 binary64: the numbers of the program *)

(** The platform's math library ([np.exp] and [**] call libm's [exp] and
    [pow], Python's complex power its [cos] and [sin]) is not part of the
    repository.  [Libm] is a software implementation on primitive floats,
    used to run the embedding on concrete junctions: it follows C99 for the
    special values and agrees with a correctly rounded [exp], [pow], [cos]
    and [sin] to a relative error of order 1e-14 (a few units in the last
    place for moderate arguments). *)
Module Libm.

Local Open Scope float_scope.

Definition of_Z (z : Z) : float :=
  if (z <? 0)%Z then - of_uint63 (Uint63.of_Z (- z))
  else of_uint63 (Uint63.of_Z z).

(** The integer part of a finite [f] with [|f| < 2^62]. *)
Definition to_Z (f : float) : Z :=
  let (m, e) := Z.frexp (abs f) in
  let v := Z.shiftl (Uint63.to_Z (normfr_mantissa m)) (e - 53) in
  if f <? 0 then (- v)%Z else v.

Definition two53 : float := 0x1p+53.

Definition is_integer (y : float) : bool :=
  (two53 <=? abs y) || (of_Z (to_Z y) =? y).
Definition is_odd_integer (y : float) : bool :=
  (abs y <? two53) && (of_Z (to_Z y) =? y) && Z.odd (to_Z y).

Definition ln2_hi : float := 0x1.62e42fee00000p-1.
Definition ln2_lo : float := 0x1.a39ef35793c76p-33.
Definition invln2 : float := 0x1.71547652b82fep+0.
Definition sqrt_half : float := 0x1.6a09e667f3bcdp-1.
Definition exp_overflow : float := 0x1.62e42fefa39efp+9.
Definition exp_underflow : float := -0x1.74910d52d3051p+9.

(** [1 + r/i (1 + r/(i+1) (...))], [k] terms of the series of [e^r]. *)
Fixpoint exp_series (k : nat) (i r : float) : float :=
  match k with
  | O => 1
  | S k' => 1 + r / i * exp_series k' (i + 1) r
  end.

Definition exp (x : float) : float :=
  if is_nan x then nan
  else if exp_overflow <? x then infinity
  else if x <? exp_underflow then 0
  else
    let k := (x * invln2 + 0x1.8p+52) - 0x1.8p+52 in
    let r := (x - k * ln2_hi) - k * ln2_lo in
    Z.ldexp (exp_series 14 1 r) (to_Z k).

(** [1/i + s2 (1/(i+2) + s2 (...))], [k] terms of the series of
    [atanh s / s]. *)
Fixpoint atanh_series (k : nat) (i s2 : float) : float :=
  match k with
  | O => 0
  | S k' => 1 / i + s2 * atanh_series k' (i + 2) s2
  end.

Definition log (x : float) : float :=
  if is_nan x || (x <? 0) then nan
  else if x =? 0 then neg_infinity
  else if x =? infinity then infinity
  else
    let (m, e) := Z.frexp x in
    let (m, e) := if m <? sqrt_half then (2 * m, (e - 1)%Z) else (m, e) in
    let s := (m - 1) / (m + 1) in
    of_Z e * ln2_hi + (2 * s * atanh_series 13 1 (s * s) + of_Z e * ln2_lo).

Fixpoint pow_pos (x : float) (p : positive) : float :=
  match p with
  | xH => x
  | xO p' => let y := pow_pos x p' in y * y
  | xI p' => let y := pow_pos x p' in x * (y * y)
  end.

Definition pow (x y : float) : float :=
  if (y =? 0) || (x =? 1) then 1
  else if is_nan x || is_nan y then nan
  else if y =? 1 then x
  else if x =? 0 then
    if y <? 0 then (if is_odd_integer y then 1 / x else infinity)
    else (if is_odd_integer y then x else 0)
  else if is_infinity y then
    if abs x =? 1 then 1
    else if abs x <? 1 then (if y <? 0 then infinity else 0)
    else (if y <? 0 then 0 else infinity)
  else if is_infinity x then
    if y <? 0 then (if (x <? 0) && is_odd_integer y then -0 else 0)
    else (if (x <? 0) && is_odd_integer y then neg_infinity else infinity)
  else if is_integer y && (abs y <=? 64) then
    match to_Z y with
    | Zpos p => pow_pos x p
    | Zneg p => 1 / pow_pos x p
    | Z0 => 1
    end
  else if x <? 0 then
    if is_integer y then
      (if Z.odd (to_Z y) then - exp (y * log (- x)) else exp (y * log (- x)))
    else nan
  else exp (y * log x).

(** [floor]: the largest integer not above [x]. *)
Definition floor (x : float) : float :=
  if is_nan x || is_infinity x || (two53 <=? abs x) then x
  else
    let t := of_Z (to_Z x) in       (* [x] truncated towards zero *)
    if t =? x then x else if x <? t then t - 1 else t.

Definition pio2_hi : float := 0x1.921fb54400000p+0.
Definition pio2_lo : float := 0x1.0b4611a626331p-34.
Definition invpio2 : float := 0x1.45f306dc9c883p-1.

(** [1 - r2/(i (i+1)) (1 - r2/((i+2) (i+3)) (...))], [k] terms: the series
    of [cos r] from [i = 1] and of [sin r / r] from [i = 2], in
    [r2 = r * r]. *)
Fixpoint trig_series (k : nat) (i r2 : float) : float :=
  match k with
  | O => 1
  | S k' => 1 - r2 / (i * (i + 1)) * trig_series k' (i + 2) r2
  end.

(** [x = k * (pi/2) + r] with [|r| <= pi/4]: [(k mod 4, r)]. *)
Definition reduce_pio2 (x : float) : Z * float :=
  let k := (x * invpio2 + 0x1.8p+52) - 0x1.8p+52 in
  let r := (x - k * pio2_hi) - k * pio2_lo in
  ((to_Z k mod 4)%Z, r).

Definition cos (x : float) : float :=
  if is_nan x || is_infinity x then nan
  else
    let '(q, r) := reduce_pio2 x in
    let c := trig_series 11 1 (r * r) in
    let s := r * trig_series 11 2 (r * r) in
    match q with
    | 0%Z => c
    | 1%Z => - s
    | 2%Z => - c
    | _ => s
    end.

Definition sin (x : float) : float :=
  if is_nan x || is_infinity x then nan
  else
    let '(q, r) := reduce_pio2 x in
    let c := trig_series 11 1 (r * r) in
    let s := r * trig_series 11 2 (r * r) in
    match q with
    | 0%Z => s
    | 1%Z => c
    | 2%Z => - s
    | _ => - c
    end.

End Libm.

Module Binary64.

Local Open Scope float_scope.

(** A decimal literal [m * 10^e], read as Python reads it: the nearest
    binary64 number.  The division is correctly rounded, so the result is
    the literal's value whenever [m] and [10^|e|] are binary64 numbers, as
    they are for every literal of the source written with [lit]. *)
Definition literal (m e : Z) : float :=
  if (e <? 0)%Z then Libm.of_Z m / Libm.of_Z (10 ^ (- e))
  else Libm.of_Z (m * 10 ^ e).

(** The cast of a [float64] to [int64]: the integer part, and the least
    [int64] for NaN, the infinities and what is out of range (the result
    of the conversion instruction of x86-64). *)
Definition to_int64 (x : float) : Z :=
  if is_finite x && (abs x <? 0x1p+63) then Libm.to_Z x
  else (- 2 ^ 63)%Z.

(** The cast of an [int64] to [float64]: the nearest binary64 number. *)
Definition of_int64 (z : Z) : float :=
  if (z =? - 2 ^ 63)%Z then -0x1p+63 else Libm.of_Z z.

#[global] Instance float_ops : NpFloat float := {
  fadd := PrimFloat.add;
  fsub := PrimFloat.sub;
  fmul := PrimFloat.mul;
  fdiv := PrimFloat.div;
  fneg := PrimFloat.opp;
  fabs := PrimFloat.abs;
  feqb := PrimFloat.eqb;
  fltb := PrimFloat.ltb;
  fleb := PrimFloat.leb;
  isfinite := PrimFloat.is_finite;
  lit := literal;
  np_nan := PrimFloat.nan;
  np_exp := Libm.exp;
  np_power := Libm.pow;
  math_floor := Libm.floor;
  math_cos := Libm.cos;
  math_sin := Libm.sin;
  astype_int64 := to_int64;
  astype_float64 := of_int64;
  np_pi := 0x1.921fb54442d18p+1;
  con_k := 1.380649e-23;
  con_e := 1.602176634e-19;
  con_h := 6.62607015e-34;
  con_c := 299792458;
  con_zero_Celsius := 273.15
}.

End Binary64.

(** ** The root finder

    [scipy.optimize.brentq] is a library routine, not code of the
    repository; the solvers above take it as a parameter.  [Scipy.brentq]
    follows SciPy's implementation (the argument checks of
    [scipy/optimize/_zeros_py.py] and the loop of
    [scipy/optimize/Zeros/brentq.c]) on binary64, with [full_output=False]
    and [disp=True]: it is what the solvers are run with on concrete
    junctions. *)
Module Scipy.

Local Open Scope float_scope.

Record brent : Set := mkBrent {
  xpre : float; xcur : float; xblk : float;
  fpre : float; fcur : float; fblk : float;
  spre : float; scur : float
}.

Definition signbit (x : float) : bool := get_sign x.

Definition fmin (a b : float) : float := if a <? b then a else b.

(** [a] and [b] are non-zero and of opposite signs. *)
Definition opposite (a b : float) : bool :=
  negb (a =? 0) && negb (b =? 0) && negb (Bool.eqb (signbit a) (signbit b)).

(** The callback, wrapped as [_wrap_nan_raise] does: a NaN value raises;
    the value is then converted to a C double, as [float()] does. *)
Definition call (f : float -> result (npscalar float)) (x : float)
    : result float :=
  fx <- f x ;;
  if np_isnan fx then Raise ValueError else Ok (real_part fx).

Fixpoint brentq_loop (f : float -> result (npscalar float)) (xtol rtol : float)
    (iter : nat) (s : brent) : result float :=
  match iter with
  | O => Raise RuntimeError          (* CONVERR: failed to converge *)
  | S iter' =>
      let s :=
        if opposite (fpre s) (fcur s)
        then mkBrent (xpre s) (xcur s) (xpre s) (fpre s) (fcur s) (fpre s)
                     (xcur s - xpre s) (xcur s - xpre s)
        else s in
      let s :=
        if abs (fblk s) <? abs (fcur s)
        then mkBrent (xcur s) (xblk s) (xcur s) (fcur s) (fblk s) (fcur s)
                     (spre s) (scur s)
        else s in
      let delta := (xtol + rtol * abs (xcur s)) / 2 in
      let sbis := (xblk s - xcur s) / 2 in
      if (fcur s =? 0) || (abs sbis <? delta) then Ok (xcur s)
      else
        let '(spre', scur') :=
          if (delta <? abs (spre s)) && (abs (fcur s) <? abs (fpre s)) then
            let stry :=
              if xpre s =? xblk s then
                (* interpolate *)
                - fcur s * (xcur s - xpre s) / (fcur s - fpre s)
              else
                (* extrapolate *)
                let dpre := (fpre s - fcur s) / (xpre s - xcur s) in
                let dblk := (fblk s - fcur s) / (xblk s - xcur s) in
                - fcur s * (fblk s * dblk - fpre s * dpre)
                / (dblk * dpre * (fblk s - fpre s)) in
            if 2 * abs stry <? fmin (abs (spre s)) (3 * abs sbis - delta)
            then (scur s, stry)      (* good short step *)
            else (sbis, sbis)        (* bisect *)
          else (sbis, sbis) in       (* bisect *)
        let xnew :=
          if delta <? abs scur' then xcur s + scur'
          else xcur s + (if 0 <? sbis then delta else - delta) in
        fnew <- call f xnew ;;
        brentq_loop f xtol rtol iter'
          (mkBrent (xcur s) xnew (xblk s) (fcur s) fnew (fblk s) spre' scur')
  end.

Definition brentq (f : float -> result (npscalar float)) (a b xtol rtol : float)
    (maxiter : Z) : result float :=
  if xtol <=? 0 then Raise ValueError            (* xtol too small *)
  else if rtol <? 0x1p-52 then Raise ValueError  (* rtol too small *)
  else
    fa <- call f a ;;
    fb <- call f b ;;
    if fa =? 0 then Ok a
    else if fb =? 0 then Ok b
    else if Bool.eqb (signbit fa) (signbit fb)
    then Raise ValueError        (* f(a) and f(b) must have different signs *)
    else brentq_loop f xtol rtol (Z.to_nat maxiter)
           (mkBrent a b 0 fa fb 0 0 0).

(** What [brentq] promises of the [x] it returns: [f x] is zero, or [f]
    changes sign between [x] and a point [x'] with
    [|x' - x| / 2 < (xtol + rtol * |x|) / 2]. *)
Definition bracketed (f : float -> result (npscalar float)) (xtol rtol x : float) : Prop :=
  exists fx, call f x = Ok fx /\
    ((fx =? 0) = true \/
     exists x' fx', call f x' = Ok fx' /\ opposite fx' fx = true /\
       (abs ((x' - x) / 2) <? (xtol + rtol * abs x) / 2) = true).

(** The loop invariant behind it: the current and previous points carry
    their function values, and the current value is zero or of a sign
    opposite to the previous or to the bracketing one. *)
Definition invariant (f : float -> result (npscalar float)) (s : brent) : Prop :=
  call f (xcur s) = Ok (fcur s) /\
  call f (xpre s) = Ok (fpre s) /\
  (fpre s =? 0) = false /\
  ((fcur s =? 0) = true \/
   opposite (fpre s) (fcur s) = true \/
   (call f (xblk s) = Ok (fblk s) /\ opposite (fblk s) (fcur s) = true)).

End Scipy.

(** ** Exact arithmetic: the operations without rounding

    The real numbers with the two infinities and NaN, and the IEEE-754 rules
    for them (the sign of zero is not kept: a division by zero goes to the
    infinity of the dividend's sign).  No operation rounds, overflows or
    underflows. *)
Module Exact.

Local Open Scope R_scope.

Inductive xreal : Type :=
| Fin (r : R)
| PInf
| NInf
| NaN.

Definition Rltb (a b : R) : bool := if Rlt_dec a b then true else false.
Definition Rleb (a b : R) : bool := if Rle_dec a b then true else false.
Definition Reqb (a b : R) : bool := if Req_dec_T a b then true else false.

(** [b] is the value of an integer, and of an odd one. *)
Definition Ris_integer (b : R) : bool := Reqb (IZR (Int_part b)) b.
Definition Ris_odd_integer (b : R) : bool :=
  Ris_integer b && Z.odd (Int_part b).

Definition xopp (x : xreal) : xreal :=
  match x with
  | Fin a => Fin (- a)
  | PInf => NInf
  | NInf => PInf
  | NaN => NaN
  end.

Definition xabs (x : xreal) : xreal :=
  match x with
  | Fin a => Fin (Rabs a)
  | PInf | NInf => PInf
  | NaN => NaN
  end.

Definition xadd (x y : xreal) : xreal :=
  match x, y with
  | Fin a, Fin b => Fin (a + b)
  | NaN, _ | _, NaN => NaN
  | PInf, NInf | NInf, PInf => NaN
  | PInf, _ | _, PInf => PInf
  | NInf, _ | _, NInf => NInf
  end.

Definition xsub (x y : xreal) : xreal := xadd x (xopp y).

(** An infinity times (or divided by) a real of the given sign. *)
Definition inf_signed (positive : bool) (a : R) : xreal :=
  if Rltb 0 a then (if positive then PInf else NInf)
  else if Rltb a 0 then (if positive then NInf else PInf)
  else NaN.

Definition xmul (x y : xreal) : xreal :=
  match x, y with
  | Fin a, Fin b => Fin (a * b)
  | NaN, _ | _, NaN => NaN
  | PInf, Fin a | Fin a, PInf => inf_signed true a
  | NInf, Fin a | Fin a, NInf => inf_signed false a
  | PInf, PInf | NInf, NInf => PInf
  | PInf, NInf | NInf, PInf => NInf
  end.

Definition xdiv (x y : xreal) : xreal :=
  match x, y with
  | Fin a, Fin b => if Reqb b 0 then inf_signed true a else Fin (a / b)
  | NaN, _ | _, NaN => NaN
  | Fin _, (PInf | NInf) => Fin 0
  | PInf, Fin b => if Rltb b 0 then NInf else PInf
  | NInf, Fin b => if Rltb b 0 then PInf else NInf
  | (PInf | NInf), (PInf | NInf) => NaN
  end.

Definition xeqb (x y : xreal) : bool :=
  match x, y with
  | Fin a, Fin b => Reqb a b
  | PInf, PInf | NInf, NInf => true
  | _, _ => false
  end.

Definition xltb (x y : xreal) : bool :=
  match x, y with
  | Fin a, Fin b => Rltb a b
  | NInf, (Fin _ | PInf) | Fin _, PInf => true
  | _, _ => false
  end.

Definition xleb (x y : xreal) : bool :=
  match x, y with
  | Fin a, Fin b => Rleb a b
  | NInf, (Fin _ | PInf | NInf) | (Fin _ | PInf), PInf => true
  | _, _ => false
  end.

Definition xisfinite (x : xreal) : bool :=
  match x with
  | Fin _ => true
  | _ => false
  end.

Definition xlit (m e : Z) : xreal := Fin (IZR m * powerRZ 10 e).

Definition xexp (x : xreal) : xreal :=
  match x with
  | Fin a => Fin (exp a)
  | PInf => PInf
  | NInf => Fin 0
  | NaN => NaN
  end.

(** [pow], with the special values of C99. *)
Definition xpow (x y : xreal) : xreal :=
  if xeqb y (Fin 0) || xeqb x (Fin 1) then Fin 1
  else
    match x, y with
    | NaN, _ | _, NaN => NaN
    | Fin a, Fin b =>
        if Rltb 0 a then Fin (Rpower a b)
        else if Reqb a 0 then (if Rltb 0 b then Fin 0 else PInf)
        else if Ris_integer b then
          Fin (if Z.odd (Int_part b) then - Rpower (- a) b
               else Rpower (- a) b)
        else NaN
    | Fin a, PInf =>
        if Rltb (Rabs a) 1 then Fin 0
        else if Reqb (Rabs a) 1 then Fin 1 else PInf
    | Fin a, NInf =>
        if Rltb (Rabs a) 1 then PInf
        else if Reqb (Rabs a) 1 then Fin 1 else Fin 0
    | PInf, Fin b => if Rltb 0 b then PInf else Fin 0
    | NInf, Fin b =>
        if Rltb 0 b then (if Ris_odd_integer b then NInf else PInf)
        else Fin 0
    | (PInf | NInf), PInf => PInf
    | (PInf | NInf), NInf => Fin 0
    end.

Definition xfloor (x : xreal) : xreal :=
  match x with
  | Fin a => Fin (IZR (Int_part a))
  | _ => x
  end.

Definition xcos (x : xreal) : xreal :=
  match x with
  | Fin a => Fin (cos a)
  | _ => NaN
  end.

Definition xsin (x : xreal) : xreal :=
  match x with
  | Fin a => Fin (sin a)
  | _ => NaN
  end.

(** The cast to [int64]: the integer part of a number in range, the least
    [int64] otherwise. *)
Definition xint64 (x : xreal) : Z :=
  match x with
  | Fin a =>
      let z := if Rltb a 0 then (- Int_part (- a))%Z else Int_part a in
      if ((- 2 ^ 63 <=? z) && (z <? 2 ^ 63))%Z then z else (- 2 ^ 63)%Z
  | _ => (- 2 ^ 63)%Z
  end.

(** The real number a finite value stands for. *)
Definition value (x : xreal) : R :=
  match x with
  | Fin r => r
  | _ => 0
  end.

#[global] Instance xreal_ops : NpFloat xreal := {
  fadd := xadd;
  fsub := xsub;
  fmul := xmul;
  fdiv := xdiv;
  fneg := xopp;
  fabs := xabs;
  feqb := xeqb;
  fltb := xltb;
  fleb := xleb;
  isfinite := xisfinite;
  lit := xlit;
  np_nan := NaN;
  np_exp := xexp;
  np_power := xpow;
  math_floor := xfloor;
  math_cos := xcos;
  math_sin := xsin;
  astype_int64 := xint64;
  astype_float64 := fun z => Fin (IZR z);
  np_pi := Fin PI;
  con_k := Fin (1380649 / 10 ^ 29);
  con_e := Fin (1602176634 / 10 ^ 28);
  con_h := Fin (662607015 / 10 ^ 42);
  con_c := Fin 299792458;
  con_zero_Celsius := Fin (27315 / 100)
}.

End Exact.

(** ** The order law the theorems rely on

    [a <= b] excludes [b < a]; it holds of binary64 and of the exact
    numbers (instances below). *)
Class NpFloatLaws (F : Type) {ops : NpFloat F} : Prop := {
  fleb_not_gt : forall a b : F, fleb a b = true -> fltb b a = false
}.

Arguments NpFloatLaws F {ops}.

(** ** Objects: the attributes of a [Junction], its arrays, and the methods
    that write them

    [Junction.set], [__init__] and [copy] work on the object itself: its
    attributes, and the numpy arrays two of them refer to.  The arrays live
    on a heap, so that a shallow copy shares them, and have the dtype that
    [np.array] gives them: [float64] for a list of floats, [int64] for a
    list of ints.  The numerical methods are those of the model above,
    applied to the [view] of the object. *)

Inductive pyexn : Set :=
| Core (e : exn)
| AttributeError
| IndexError.

(** A method that writes: the state it leaves, and the exception it raised,
    if any (what was written before the raise stays written). *)
Inductive outcome (A : Type) : Type :=
| Done (a : A)
| Raised (e : pyexn).

Arguments Done {A} a.
Arguments Raised {A} e.

Definition of_result {A : Type} (r : result A) : outcome A :=
  match r with
  | Ok a => Done a
  | Raise e => Raised (Core e)
  end.

(** [l[i] = x] on a list, for [i] in range. *)
Fixpoint list_set {A : Type} (l : list A) (i : nat) (x : A) : list A :=
  match l, i with
  | [], _ => []
  | _ :: l', O => x :: l'
  | y :: l', S i' => y :: list_set l' i' x
  end.

(** The keys of [set] whose branch does not coerce the value to a float. *)
Definition typed_elsewhere (key : string) : bool :=
  existsb (String.eqb key)
    ["RBB"; "name"; "pn"; "RBB_dict"; "n"; "J0ratio"]%string.

(** The methods and plain attributes of the class.  An entry of
    [self.__dict__] under one of these names would hide it; the properties
    ([Jphoto], [TK], [Vth], [Jdb], [J0]) cannot be hidden that way. *)
Definition class_attribute (key : string) : bool :=
  existsb (String.eqb key)
    ["ATTR"; "ARY_ATTR"; "J0scale"; "copy"; "set"; "_J0init"; "Jem";
     "notdiode"; "Jmultidiodes"; "JshuntRBB"; "Jparallel"; "Vdiode"; "_dV";
     "Vmid"; "controls"]%string.

(** The keys that are no float keyword of [set]: those above, and [self],
    the parameter of [set] itself (a call with the keyword [self] raises
    [TypeError] before the body runs). *)
Definition reserved (key : string) : bool :=
  typed_elsewhere key || class_attribute key || String.eqb key "self".

(** [value == 'text'] for a value that is a string or [None]. *)
Definition py_eq (value : option string) (text : string) : bool :=
  match value with
  | Some v => String.eqb v text
  | None => false
  end.

(** The keys ['n[i]'] and ['J0ratio[i]'] of [set], for [i] up to 3. *)
Definition n_key (i : nat) : string :=
  match i with
  | 0 => "n[0]"
  | 1 => "n[1]"
  | 2 => "n[2]"
  | _ => "n[3]"
  end%string.

Definition J0ratio_key (i : nat) : string :=
  match i with
  | 0 => "J0ratio[0]"
  | 1 => "J0ratio[1]"
  | 2 => "J0ratio[2]"
  | _ => "J0ratio[3]"
  end%string.

(** The lists that [np.array] is given: of built-in floats, or of built-in
    ints (each within the range of [int64]); a list that mixes the two is
    taken as the list of its float values, as [np.array] takes it. *)
Inductive pylist (F : Type) : Type :=
| list_float (l : list F)
| list_int (l : list Z).

Arguments list_float {F} l.
Arguments list_int {F} l.

(** A one-dimensional [numpy.ndarray], of dtype [float64] or [int64]. *)
Inductive array (F : Type) : Type :=
| float64_array (a : list F)
| int64_array (a : list Z).

Arguments float64_array {F} a.
Arguments int64_array {F} a.

Section Objects.

Context {F : Type} `{NpFloat F}.

Local Open Scope np_scope.

Definition len (value : pylist F) : nat :=
  match value with
  | list_float l => length l
  | list_int l => length l
  end.

(** [a.size] *)
Definition size (a : array F) : nat :=
  match a with
  | float64_array a => length a
  | int64_array a => length a
  end.

(** The items as [float64]: what arithmetic with a float, a comparison with
    a float and [np.float64 / item] make of them. *)
Definition values (a : array F) : list F :=
  match a with
  | float64_array a => a
  | int64_array a => map astype_float64 a
  end.

(** [np.array(value)] as an array; of the empty list, one of [float64]. *)
Definition asarray (value : pylist F) : array F :=
  match value with
  | list_float l => float64_array l
  | list_int [] => float64_array []
  | list_int l => int64_array l
  end.

(** [a[i] = np.float64(x)] for [i] in range: an [int64] array takes the
    value cast to [int64]. *)
Definition store (a : array F) (i : nat) (x : F) : array F :=
  match a with
  | float64_array a => float64_array (list_set a i x)
  | int64_array a => int64_array (list_set a i (astype_int64 x))
  end.

(** The numpy arrays, by address. *)
Definition heap : Type := list (array F).

Definition array_at (h : heap) (l : nat) : array F :=
  nth l h (float64_array []).

(** [np.array(value)]: a new array. *)
Definition np_array (h : heap) (value : pylist F) : heap * nat :=
  (h ++ [asarray value], length h).

(** [a[i] = np.float64(x)] for the array at [l]; [IndexError] out of
    range. *)
Definition setitem (h : heap) (l i : nat) (x : F) : heap * outcome unit :=
  if (i <? size (array_at h l))%nat
  then (list_set h l (store (array_at h l) i x), Done tt)
  else (h, Raised IndexError).

(** [self.__dict__], for the attributes the methods read.  [attr_n] and
    [attr_J0ratio] hold the address of an array; [attr_J0ratio] is [None]
    while the object has no such attribute. *)
Record object : Type := mkObject {
  attr_name : string;
  attr_Eg : F;
  attr_TC : F;
  attr_Jext : F;
  attr_Gsh : F;
  attr_Rser : F;
  attr_lightarea : F;
  attr_totalarea : F;
  attr_pn : Z;
  attr_beta : F;
  attr_gamma : F;
  attr_JLC : F;
  attr_n : nat;
  attr_J0ratio : option nat;
  attr_RBB_dict : RBB F
}.

(** The junction the numerical methods see.  An object without [J0ratio]
    has no [J0]: [getattr_J0] below raises for it. *)
Definition view (h : heap) (self : object) : Junction F :=
  mkJunction (attr_Eg self) (attr_TC self) (attr_Jext self) (attr_Gsh self)
    (attr_Rser self) (attr_lightarea self) (attr_totalarea self)
    (attr_pn self) (attr_beta self) (attr_gamma self) (attr_JLC self)
    (ndarray (values (array_at h (attr_n self))))
    (match attr_J0ratio self with
     | Some l => ndarray (values (array_at h l))
     | None => scalar np_nan
     end)
    (attr_RBB_dict self).

(** [self.J0]: the property reads [self.n] and then [self.J0ratio]. *)
Definition getattr_J0 (h : heap) (self : object) : outcome (npvalue F) :=
  match attr_J0ratio self with
  | Some _ => Done (J0 (view h self))
  | None => Raised AttributeError
  end.

(** [self.notdiode()]: [self.J0] is read only when [pn != 0]. *)
Definition call_notdiode (h : heap) (self : object) : outcome bool :=
  if (attr_pn self =? 0)%Z then Done true
  else
    match attr_J0ratio self with
    | Some _ => of_result (notdiode (view h self))
    | None => Raised AttributeError
    end.

(** *** Writing one attribute *)

Definition with_name (self : object) (v : string) : object :=
  mkObject v (attr_Eg self) (attr_TC self) (attr_Jext self) (attr_Gsh self)
    (attr_Rser self) (attr_lightarea self) (attr_totalarea self)
    (attr_pn self) (attr_beta self) (attr_gamma self) (attr_JLC self)
    (attr_n self) (attr_J0ratio self) (attr_RBB_dict self).

Definition with_pn (self : object) (v : Z) : object :=
  mkObject (attr_name self) (attr_Eg self) (attr_TC self) (attr_Jext self)
    (attr_Gsh self) (attr_Rser self) (attr_lightarea self)
    (attr_totalarea self) v (attr_beta self) (attr_gamma self)
    (attr_JLC self) (attr_n self) (attr_J0ratio self) (attr_RBB_dict self).

Definition with_n (self : object) (v : nat) : object :=
  mkObject (attr_name self) (attr_Eg self) (attr_TC self) (attr_Jext self)
    (attr_Gsh self) (attr_Rser self) (attr_lightarea self)
    (attr_totalarea self) (attr_pn self) (attr_beta self) (attr_gamma self)
    (attr_JLC self) v (attr_J0ratio self) (attr_RBB_dict self).

Definition with_J0ratio (self : object) (v : nat) : object :=
  mkObject (attr_name self) (attr_Eg self) (attr_TC self) (attr_Jext self)
    (attr_Gsh self) (attr_Rser self) (attr_lightarea self)
    (attr_totalarea self) (attr_pn self) (attr_beta self) (attr_gamma self)
    (attr_JLC self) (attr_n self) (Some v) (attr_RBB_dict self).

Definition with_RBB_dict (self : object) (v : RBB F) : object :=
  mkObject (attr_name self) (attr_Eg self) (attr_TC self) (attr_Jext self)
    (attr_Gsh self) (attr_Rser self) (attr_lightarea self)
    (attr_totalarea self) (attr_pn self) (attr_beta self) (attr_gamma self)
    (attr_JLC self) (attr_n self) (attr_J0ratio self) v.

(** [self.__dict__[key] = x] for a float [x]: the ten float attributes;
    under any other key the value becomes an attribute that no method
    reads. *)
Definition with_float (self : object) (key : string) (x : F) : object :=
  let f (k : string) (old : F) : F := if String.eqb key k then x else old in
  mkObject (attr_name self)
    (f "Eg"%string (attr_Eg self)) (f "TC"%string (attr_TC self))
    (f "Jext"%string (attr_Jext self)) (f "Gsh"%string (attr_Gsh self))
    (f "Rser"%string (attr_Rser self)) (f "lightarea"%string (attr_lightarea self))
    (f "totalarea"%string (attr_totalarea self)) (attr_pn self)
    (f "beta"%string (attr_beta self)) (f "gamma"%string (attr_gamma self))
    (f "JLC"%string (attr_JLC self))
    (attr_n self) (attr_J0ratio self) (attr_RBB_dict self).

(** *** [set] *)

(** One keyword argument of [set], with a value of the type its branch
    expects: [RBB] a string or [None], [name] a string, [pn] an int,
    [RBB_dict] a dict, [n] and [J0ratio] a list of floats or of ints, every
    other key a float.  The keys that are [reserved] are left out. *)
Inductive kwarg : Type :=
| kw_RBB (value : option string)
| kw_name (value : string)
| kw_pn (value : Z)
| kw_RBB_dict (value : RBB F)
| kw_n (value : pylist F)
| kw_J0ratio (value : pylist F)
| kw_float (key : string) (value : F) (_ : reserved key = false).

(** [self.n[i] = np.float64(value)] *)
Definition set_n_item (s : heap * object) (i : nat) (value : F)
    : (heap * object) * outcome unit :=
  let '(h, self) := s in
  let '(h', r) := setitem h (attr_n self) i value in
  ((h', self), r).

(** [self.J0ratio[i] = np.float64(value)] *)
Definition set_J0ratio_item (s : heap * object) (i : nat) (value : F)
    : (heap * object) * outcome unit :=
  let '(h, self) := s in
  match attr_J0ratio self with
  | Some l => let '(h', r) := setitem h l i value in ((h', self), r)
  | None => (s, Raised AttributeError)
  end.

(** The body of the loop of [set]. *)
Definition set_item (s : heap * object) (kw : kwarg)
    : (heap * object) * outcome unit :=
  let '(h, self) := s in
  match kw with
  | kw_RBB value =>
      if py_eq value "JFG" then
        ((h, with_RBB_dict self (RBB_JFG (fl 10) (lit 5 (-1)) (fl 0))),
         Done tt)
      else if py_eq value "bishop" then
        ((h, with_RBB_dict self
               (RBB_bishop (lit 328 (-2)) (fl 1) (- lit 55 (-1)))),
         Done tt)
      else ((h, with_RBB_dict self RBB_None), Done tt)   (* no RBB *)
  | kw_name value => ((h, with_name self value), Done tt)
  | kw_pn value => ((h, with_pn self value), Done tt)
  | kw_RBB_dict value => ((h, with_RBB_dict self value), Done tt)
  | kw_n value =>
      let '(h', l) := np_array h value in ((h', with_n self l), Done tt)
  | kw_J0ratio value =>
      let '(h', l) := np_array h value in
      ((h', with_J0ratio self l), Done tt)
  | kw_float key value _ =>
      if String.eqb key "area" then
        ((h, with_float (with_float self "lightarea" value)
               "totalarea" value), Done tt)
      else if String.eqb key "n[0]" then set_n_item s 0 value
      else if String.eqb key "n[1]" then set_n_item s 1 value
      else if String.eqb key "n[2]" then set_n_item s 2 value
      else if String.eqb key "n[3]" then set_n_item s 3 value
      else if String.eqb key "J0ratio[0]" then set_J0ratio_item s 0 value
      else if String.eqb key "J0ratio[1]" then set_J0ratio_item s 1 value
      else if String.eqb key "J0ratio[2]" then set_J0ratio_item s 2 value
      else if String.eqb key "J0ratio[3]" then set_J0ratio_item s 3 value
      else ((h, with_float self key value), Done tt)   (* scalar float *)
  end.

(** [self.set] with its keyword arguments: the keywords in their order, up
    to the first that raises. *)
Fixpoint set (s : heap * object) (kwargs : list kwarg)
    : (heap * object) * outcome unit :=
  match kwargs with
  | [] => (s, Done tt)
  | kw :: kwargs' =>
      match set_item s kw with
      | (s', Done _) => set s' kwargs'
      | (s', Raised e) => (s', Raised e)
      end
  end.

(** *** [copy] and [__init__] *)

(** [copy.copy(self)]: a new object with the same attribute values, so with
    the same arrays. *)
Definition copy (self : object) : object := self.

(** [self._J0init(J0ref)] on the object: a new [J0ratio] array, of
    [float64], on success. *)
Definition call_J0init (s : heap * object) (J0ref : pylist F)
    : (heap * object) * Z :=
  let '(h, self) := s in
  match _J0init (view h self) (values (asarray J0ref)) with
  | (0%Z, j) =>
      match J0ratio j with
      | ndarray rs =>
          let '(h', l) := np_array h (list_float rs) in
          ((h', with_J0ratio self l), 0%Z)
      | scalar _ => (s, 0%Z)
      end
  | (status, _) => (s, status)
  end.

(** [Junction(name, Eg, TC, Gsh, Rser, area, n, J0ratio, J0ref, RBB, Jext,
    JLC, pn, beta, gamma)], with [n], [J0ratio] and [J0ref] lists of floats
    or of ints and [J0ref] possibly [None]. *)
Definition __init__ (h : heap) (name : string) (Eg TC Gsh Rser area : F)
    (n J0ratio : pylist F) (J0ref : option (pylist F)) (RBB : option string)
    (Jext JLC : F) (pn : Z) (beta gamma : F) : heap * object :=
  let '(h, ln) := np_array h n in
  let self :=
    mkObject name Eg TC Jext Gsh Rser area area pn beta gamma JLC ln None
      RBB_None in
  let s :=
    match J0ref with
    | None =>
        let '(h, lr) := np_array h J0ratio in (h, with_J0ratio self lr)
    | Some J0ref => fst (call_J0init (h, self) J0ref)
    end in
  fst (set s [kw_RBB RBB]).

(** *** [__str__] and [__repr__] *)

(** An argument of [str.format]. *)
Inductive format_arg : Type :=
| fmt_float (x : F)
| fmt_int (z : Z)
| fmt_str (s : string).

(** Python's formatting, [template.format(args)] and [str(dict)], is taken
    as given. *)
Variable str_format : string -> list format_arg -> string.
Variable str_dict : RBB F -> string.

Definition nl : string := String (Ascii.ascii_of_nat 10) EmptyString.

(** The items of an array as arguments of [format]. *)
Definition items (a : array F) : list format_arg :=
  match a with
  | float64_array a => map fmt_float a
  | int64_array a => map fmt_int a
  end.

Definition __str__ (h : heap) (self : object) : outcome string :=
  let strout := (attr_name self ++ ": <tandem.Junction class>")%string in
  let strout :=
    (strout ++ str_format (nl ++ "Eg = {0:.2f} eV, TC = {1:.1f} C")
                 [fmt_float (attr_Eg self); fmt_float (attr_TC self)])%string in
  let strout :=
    (strout ++ str_format (nl ++ "Jext = {0:.1f} , JLC = {1:.1f} mA/cm2")
                 [fmt_float (attr_Jext self * fl 1000);
                  fmt_float (attr_JLC self * fl 1000)])%string in
  let strout :=
    (strout ++ str_format (nl ++ "Gsh = {0:g} S/cm2, Rser = {1:g} Ωcm2")
                 [fmt_float (attr_Gsh self); fmt_float (attr_Rser self)])%string in
  let strout :=
    (strout ++ str_format (nl ++ "lightA = {0:g} cm2, totalA = {1:g} cm2")
                 [fmt_float (attr_lightarea self);
                  fmt_float (attr_totalarea self)])%string in
  let strout :=
    (strout ++ str_format (nl ++ "pn = {0:d}, beta = {1:g}, gamma = {2:g}")
                 [fmt_int (attr_pn self); fmt_float (attr_beta self);
                  fmt_float (attr_gamma self);
                  fmt_float (attr_JLC self)])%string in
  let strout :=
    (strout ++ str_format (nl ++ " {0:^5s} {1:^10s} {2:^10s}")
                 [fmt_str "n"; fmt_str "J0ratio";
                  fmt_str "J0(A/cm2)"])%string in
  let strout :=
    (strout ++ str_format (nl ++ " {0:^5s} {1:^10.0f} {2:^10.3e}")
                 [fmt_str "db"; fmt_float (fl 1);
                  fmt_float (Jdb (view h self))])%string in
  (* for ... in zip(self.n, self.J0ratio, self.J0) *)
  match attr_J0ratio self with
  | None => Raised AttributeError
  | Some lr =>
      match J0 (view h self) with
      | scalar _ => Raised (Core TypeError)
      | ndarray js =>
          let rows :=
            combine (items (array_at h (attr_n self)))
              (combine (items (array_at h lr)) js) in
          let strout :=
            fold_left
              (fun (strout : string)
                   (row : format_arg * (format_arg * F)) =>
                 (strout
                  ++ str_format (nl ++ " {0:^5.2f} {1:^10.2f} {2:^10.3e}")
                       [fst row; fst (snd row);
                        fmt_float (snd (snd row))])%string)
              rows strout in
          Done
            (match attr_RBB_dict self with
             | RBB_None => strout
             | d => (strout ++ " " ++ nl ++ "RBB_dict: " ++ str_dict d)%string
             end)
      end
  end.

Definition __repr__ (h : heap) (self : object) : outcome string :=
  __str__ h self.

(** *** What the statements below speak of *)

(** A keyword that binds no new array: any but [n] and [J0ratio]. *)
Definition keeps_arrays (kw : kwarg) : bool :=
  match kw with
  | kw_n _ | kw_J0ratio _ => false
  | _ => true
  end.

(** The addresses of the object are those of arrays on the heap. *)
Definition well_formed (h : heap) (self : object) : Prop :=
  (attr_n self < length h)%nat /\
  forall lr, attr_J0ratio self = Some lr -> (lr < length h)%nat.

(** [n] and [J0ratio] are arrays of one size. *)
Definition sizes_agree (h : heap) (self : object) : Prop :=
  exists lr, attr_J0ratio self = Some lr /\
    size (array_at h (attr_n self)) = size (array_at h lr).

End Objects.

(** ** Junctions used in the examples *)

Module Examples.

Local Open Scope float_scope.

(** [Junction()]: the defaults of [__init__]. *)
Definition junc : Junction float :=
  mkJunction 1.1 25 0.04 0 0 1 1 (-1) 15 0 0
    (ndarray [1; 2]) (ndarray [10; 10]) RBB_None.

(** [Junction(pn=0)]: not a diode. *)
Definition resistor : Junction float :=
  mkJunction 1.1 25 0.04 0 0 1 1 0 15 0 0
    (ndarray [1; 2]) (ndarray [10; 10]) RBB_None.

(** [Junction(Rser=10.)]. *)
Definition junc_Rser10 : Junction float :=
  mkJunction 1.1 25 0.04 0 10 1 1 (-1) 15 0 0
    (ndarray [1; 2]) (ndarray [10; 10]) RBB_None.

(** [Junction(n=[1.])]: one ideality factor, the default two ratios. *)
Definition junc_mismatch : Junction float :=
  mkJunction 1.1 25 0.04 0 0 1 1 (-1) 15 0 0
    (ndarray [1]) (ndarray [10; 10]) RBB_None.

Definition junc_bishop : Junction float :=
  mkJunction 1.1 25 0.04 0 0 1 1 (-1) 15 0 0
    (ndarray [1; 2]) (ndarray [10; 10]) (RBB_bishop 3.28 1 (-5.5)).

(** [Junction(n=[0.], J0ratio=[10.])]: an ideality factor 0. *)
Definition junc_n0 : Junction float :=
  mkJunction 1.1 25 0.04 0 0 1 1 (-1) 15 0 0
    (ndarray [0]) (ndarray [10]) RBB_None.

(** [Junction()] in exact arithmetic. *)
Definition junc_exact : Junction Exact.xreal :=
  mkJunction (Exact.Fin (11 / 10)) (Exact.Fin 25) (Exact.Fin (4 / 100))
    (Exact.Fin 0) (Exact.Fin 0) (Exact.Fin 1) (Exact.Fin 1) (-1)
    (Exact.Fin 15) (Exact.Fin 0) (Exact.Fin 0)
    (ndarray [Exact.Fin 1; Exact.Fin 2])
    (ndarray [Exact.Fin 10; Exact.Fin 10]) RBB_None.


(** [Junction(RBB='bishop', Gsh=0.001)]. *)
Definition junc_bishop_Gsh : Junction float :=
  mkJunction 1.1 25 0.04 0.001 0 1 1 (-1) 15 0 0
    (ndarray [1; 2]) (ndarray [10; 10]) (RBB_bishop 3.28 1 (-5.5)).

(** [Junction(RBB='bishop', Rser=10.)]. *)
Definition junc_bishop_Rser10 : Junction float :=
  mkJunction 1.1 25 0.04 0 10 1 1 (-1) 15 0 0
    (ndarray [1; 2]) (ndarray [10; 10]) (RBB_bishop 3.28 1 (-5.5)).


(** [Junction()] as an object, on an empty heap. *)
Definition junction : heap * object :=
  __init__ [] "junc" 1.1 25 0 0 1 (list_float [1; 2]) (list_float [10; 10])
    None None 0.04 0 (-1) 15 0.

(** [Junction(n=[1, 2])]: the ideality factors given as ints. *)
Definition junction_int : heap * object :=
  __init__ [] "junc" 1.1 25 0 0 1 (list_int [1; 2]%Z) (list_float [10; 10])
    None None 0.04 0 (-1) 15 0.

(** [Junction(pn=0, J0ref=[1e-15])]. *)
Definition resistor_J0ref1 : heap * object :=
  __init__ [] "junc" 1.1 25 0 0 1 (list_float [1; 2]) (list_float [10; 10])
    (Some (list_float [1e-15])) None 0.04 0 0 15 0.

End Examples.

(** * Properties *)

Section Generic.

Context {F : Type} `{NpFloat F}.
Variable brentq :
  (F -> result (npscalar F)) -> F -> F -> F -> F -> Z -> result F.

Local Open Scope np_scope.

(** *** Element-wise arithmetic *)

Lemma np_elementwise_length (op : F -> F -> F) (a b : list F) :
  length a = length b -> length (np_elementwise op a b) = length a.
Proof.
  revert b; induction a as [|x a IH]; intros [|y b] E; simpl in *;
    try discriminate; auto.
Qed.

Lemma np_elementwise_nth (op : F -> F -> F) (a b : list F) (i : nat) (d : F) :
  length a = length b -> (i < length a)%nat ->
  nth i (np_elementwise op a b) d = op (nth i a d) (nth i b d).
Proof.
  revert b i; induction a as [|x a IH]; intros [|y b] i E Hi; simpl in *;
    try discriminate; try lia.
  destruct i as [|i]; [reflexivity|].
  apply IH; lia.
Qed.

Lemma np_scalar_left_nth (op : F -> F -> F) (s : F) (a : list F) (i : nat) (d : F) :
  (i < length a)%nat ->
  nth i (np_scalar_left op s a) d = op s (nth i a d).
Proof.
  intros Hi. unfold np_scalar_left.
  rewrite (nth_indep _ d (op s d)) by (rewrite length_map; exact Hi).
  apply (map_nth (fun x => op s x)).
Qed.

Lemma np_scalar_right_nth (op : F -> F -> F) (s : F) (a : list F) (i : nat) (d : F) :
  (i < length a)%nat ->
  nth i (np_scalar_right op a s) d = op (nth i a d) s.
Proof.
  intros Hi. unfold np_scalar_right.
  rewrite (nth_indep _ d (op d s)) by (rewrite length_map; exact Hi).
  apply (map_nth (fun x => op x s)).
Qed.

Lemma np_scalar_left_length (op : F -> F -> F) (s : F) (a : list F) :
  length (np_scalar_left op s a) = length a.
Proof. apply length_map. Qed.

Lemma np_scalar_right_length (op : F -> F -> F) (s : F) (a : list F) :
  length (np_scalar_right op a s) = length a.
Proof. apply length_map. Qed.

(** *** [J0] *)

Lemma J0_same_size (j : Junction F) (ns rs : list F) :
  n j = ndarray ns -> J0ratio j = ndarray rs -> length ns = length rs ->
  exists l,
    J0 j = ndarray l /\ length l = length ns /\
    forall (i : nat) (d : F), (i < length ns)%nat ->
      nth i l d
      = (Jdb j * fl 1000) ** (fl 1 / nth i ns d) * nth i rs d / fl 1000.
Proof.
  intros Hn Hr E. unfold J0. rewrite Hn, Hr.
  rewrite (proj2 (Nat.eqb_eq _ _) E).
  eexists; split; [reflexivity|]. split.
  - rewrite np_scalar_right_length, np_elementwise_length;
      rewrite !np_scalar_left_length; auto.
  - intros i d Hi. unfold J0scale.
    rewrite np_scalar_right_nth
      by (rewrite np_elementwise_length; rewrite !np_scalar_left_length; auto).
    rewrite np_elementwise_nth by (rewrite !np_scalar_left_length; auto).
    rewrite np_scalar_left_nth by (rewrite np_scalar_left_length; auto).
    rewrite np_scalar_left_nth by auto.
    reflexivity.
Qed.

Lemma J0_different_sizes (j : Junction F) (ns rs : list F) :
  n j = ndarray ns -> J0ratio j = ndarray rs -> length ns <> length rs ->
  J0 j = scalar np_nan.
Proof.
  intros Hn Hr E. unfold J0. rewrite Hn, Hr.
  apply Nat.eqb_neq in E. rewrite E. reflexivity.
Qed.

(** *** [notdiode] and the solvers *)

Lemma notdiode_true_iff (j : Junction F) :
  notdiode j = Ok true <->
  pn j = 0%Z \/
  exists js, J0 j = ndarray js /\ (fold_left fadd js (fl 0) == fl 0) = true.
Proof.
  unfold notdiode. destruct (Z.eqb_spec (pn j) 0) as [E|E].
  - split; auto.
  - destruct (J0 j) as [js|x]; simpl.
    + split.
      * intros Hs. right. exists js. split; [reflexivity|].
        now inversion Hs.
      * intros [Hp|[js' [Hj Hs]]]; [contradiction|].
        inversion Hj; subst. now rewrite Hs.
    + split; [discriminate|].
      intros [Hp|[js' [Hj _]]]; [contradiction|discriminate].
Qed.

Lemma Vdiode_notdiode (j : Junction F) (J : F) :
  notdiode j = Ok true -> Vdiode brentq j J = Ok (fl 0).
Proof. intros Hn. unfold Vdiode. now rewrite Hn. Qed.

Lemma Vmid_notdiode (j : Junction F) (Vtot : F) :
  notdiode j = Ok true -> Vmid brentq j Vtot = Ok (fl 0).
Proof. intros Hn. unfold Vmid. now rewrite Hn. Qed.


Lemma Vmid_diode (j : Junction F) (Vtot : F) :
  notdiode j = Ok false ->
  Vmid brentq j Vtot
  = Ok (try_except
          (brentq (fun v => _dV j (py_float v) Vtot)
             (- fl 10) (fl 3) (lit 1 (-4)) (lit 1 (-15)) 1000)
          np_nan).
Proof. intros Hn. unfold Vmid. now rewrite Hn. Qed.

Lemma notdiode_mismatch (j : Junction F) (ns rs : list F) :
  pn j <> 0%Z -> n j = ndarray ns -> J0ratio j = ndarray rs ->
  length ns <> length rs ->
  notdiode j = Raise TypeError.
Proof.
  intros Hp Hn Hr E. unfold notdiode.
  destruct (Z.eqb_spec (pn j) 0) as [E0|_]; [contradiction|].
  now rewrite (J0_different_sizes j Hn Hr E).
Qed.

Lemma Vdiode_raises (j : Junction F) (J : F) (e : exn) :
  notdiode j = Raise e -> Vdiode brentq j J = Raise e.
Proof. intros Hn. unfold Vdiode. now rewrite Hn. Qed.

Lemma Vmid_raises (j : Junction F) (Vtot : F) (e : exn) :
  notdiode j = Raise e -> Vmid brentq j Vtot = Raise e.
Proof. intros Hn. unfold Vmid. now rewrite Hn. Qed.

(** *** The closed forms *)

Lemma Jdb_closed_form (j : Junction F) :
  let T := TC j + con_zero_Celsius in
  let Vth := con_k / con_e * T in
  let x := Eg j / Vth in
  Jdb j = DB_PREFIX * T ** fl 3 * (x * x + fl 2 * x + fl 2) * np_exp (- x).
Proof. reflexivity. Qed.

Lemma Jem_positive (j : Junction F) (V : F) :
  (V >? fl 0) = true ->
  Jem j V = Jdb j * (np_exp (V / Vth j) - fl 1) + gamma j * Jphoto j.
Proof. intros HV. unfold Jem. now rewrite HV. Qed.

Lemma Jem_not_positive (j : Junction F) (V : F) :
  (V >? fl 0) = false -> Jem j V = fl 0.
Proof. intros HV. unfold Jem. now rewrite HV. Qed.

Lemma Jem_nonpositive `{!NpFloatLaws F} (j : Junction F) (V : F) :
  (V <=? fl 0) = true -> Jem j V = fl 0.
Proof. intros HV. apply Jem_not_positive. now apply fleb_not_gt. Qed.









(** *** Python's power of two built-in floats *)


(** *** [Jmultidiodes]: every admitted diode enters the sum *)

Lemma Jmultidiodes_step_eq (j : Junction F) (V Jrec ni J0i : F) :
  Jmultidiodes_step j V Jrec (ni, J0i)
  = if (ni >? fl 0) && isfinite J0i
    then Jrec + J0i * (np_exp (V / Vth j / ni) - fl 1)
    else Jrec.
Proof. unfold Jmultidiodes_step. now destruct ((ni >? fl 0) && isfinite J0i). Qed.

Lemma Jmultidiodes_sum (j : Junction F) (V : F) (ns js : list F) :
  n j = ndarray ns -> J0 j = ndarray js ->
  Jmultidiodes j V
  = Ok (fold_left fadd
          (map (fun d => snd d * (np_exp (V / Vth j / fst d) - fl 1))
             (filter (fun d => (fst d >? fl 0) && isfinite (snd d))
                (combine ns js)))
          (fl 0)).
Proof.
  intros Hn Hj. unfold Jmultidiodes. rewrite Hn, Hj. simpl. f_equal.
  assert (Hfold : forall (l : list (F * F)) (acc : F),
    fold_left (Jmultidiodes_step j V) l acc
    = fold_left fadd
        (map (fun d => snd d * (np_exp (V / Vth j / fst d) - fl 1))
           (filter (fun d => (fst d >? fl 0) && isfinite (snd d)) l))
        acc).
  { induction l as [|[ni J0i] l IH]; intros acc; [reflexivity|].
    cbn [fold_left filter]. rewrite Jmultidiodes_step_eq. cbn [fst snd].
    destruct ((ni >? fl 0) && isfinite J0i); [|apply IH].
    cbn [map fold_left fst snd]. apply IH. }
  apply Hfold.
Qed.

(** *** The series residual *)

Lemma dV_value (j : Junction F) (v : pynumber F) (Vtot : F)
    (J : npscalar F) :
  Jparallel j v (Jphoto j) = Ok J ->
  _dV j v Vtot
  = Ok (np_add (float64 (Vtot - float_of v)) (np_mul J (float64 (Rser j)))).
Proof. intros E. unfold _dV. now rewrite E. Qed.

(** With a real current the residual is real. *)
Lemma dV_value_real (j : Junction F) (v : pynumber F) (Vtot J : F) :
  Jparallel j v (Jphoto j) = Ok (float64 J) ->
  _dV j v Vtot = Ok (float64 (Vtot - float_of v + J * Rser j)).
Proof. intros E. now rewrite (dV_value j v Vtot E). Qed.

Lemma dV_raises (j : Junction F) (v : pynumber F) (Vtot : F) (e : exn) :
  Jparallel j v (Jphoto j) = Raise e -> _dV j v Vtot = Raise e.
Proof. intros E. unfold _dV. now rewrite E. Qed.

(** *** [_J0init] *)

Lemma J0init_different_sizes (j : Junction F) (ns J0ref : list F) :
  n j = ndarray ns -> length ns <> length J0ref ->
  _J0init j J0ref = (1%Z, j).
Proof.
  intros Hn E. unfold _J0init. rewrite Hn.
  now rewrite (proj2 (Nat.eqb_neq _ _) E).
Qed.

Lemma J0init_same_size (j : Junction F) (ns J0ref : list F) :
  n j = ndarray ns -> length ns = length J0ref ->
  exists rs,
    _J0init j J0ref = (0%Z, set_J0ratio j (ndarray rs)) /\
    length rs = length ns /\
    forall (i : nat) (d : F), (i < length ns)%nat ->
      nth i rs d
      = fl 1000 * nth i J0ref d / (Jdb j * fl 1000) ** (fl 1 / nth i ns d).
Proof.
  intros Hn E. unfold _J0init. rewrite Hn.
  rewrite (proj2 (Nat.eqb_eq _ _) E).
  eexists; split; [reflexivity|]. split.
  - rewrite np_elementwise_length; rewrite !np_scalar_left_length; auto.
  - intros i d Hi. unfold J0scale.
    rewrite np_elementwise_nth
      by (rewrite !np_scalar_left_length; auto; lia).
    rewrite np_scalar_left_nth by lia.
    rewrite np_scalar_left_nth by (rewrite np_scalar_left_length; auto).
    rewrite np_scalar_left_nth by auto.
    reflexivity.
Qed.

Lemma Jdb_set_J0ratio (j : Junction F) (v : npvalue F) :
  Jdb (set_J0ratio j v) = Jdb j.
Proof. reflexivity. Qed.

End Generic.

(** ** Objects: [set], [copy], [__init__], [__str__] *)

Section ObjectFacts.

Context {F : Type} `{NpFloat F}.
Variable str_format : string -> list (@format_arg F) -> string.
Variable str_dict : RBB F -> string.

Local Open Scope np_scope.

(** *** Lists, arrays and the heap *)

Lemma list_set_length {A : Type} (l : list A) (i : nat) (x : A) :
  length (list_set l i x) = length l.
Proof.
  revert i; induction l as [|y l IH]; intros [|i]; simpl; auto.
Qed.

Lemma list_set_nth_same {A : Type} (l : list A) (i : nat) (x d : A) :
  (i < length l)%nat -> nth i (list_set l i x) d = x.
Proof.
  revert i; induction l as [|y l IH]; intros [|i] Hi; simpl in *;
    try lia; auto.
  apply IH. lia.
Qed.

Lemma list_set_nth_other {A : Type} (l : list A) (i k : nat) (x d : A) :
  k <> i -> nth k (list_set l i x) d = nth k l d.
Proof.
  revert i k; induction l as [|y l IH]; intros [|i] [|k] Hk; simpl;
    try congruence; auto.
Qed.

Lemma values_length (a : array F) : length (values a) = size a.
Proof. destruct a; [reflexivity|apply length_map]. Qed.

Lemma asarray_size (value : pylist F) : size (asarray value) = len value.
Proof. destruct value as [l|[|z l]]; reflexivity. Qed.

Lemma store_size (a : array F) (i : nat) (x : F) :
  size (store a i x) = size a.
Proof. destruct a; apply list_set_length. Qed.

(** Writing an item keeps the size of every array. *)
Lemma setitem_size (h : heap) (l i : nat) (x : F) (k : nat) :
  size (array_at (fst (setitem h l i x)) k) = size (array_at h k).
Proof.
  unfold setitem.
  destruct (i <? size (array_at h l))%nat eqn:Hi; [|reflexivity].
  cbn [fst]. unfold array_at at 1.
  destruct (Nat.eq_dec k l) as [->|Hk].
  - destruct (Nat.lt_ge_cases l (length h)) as [Hl|Hl].
    + rewrite list_set_nth_same by exact Hl. apply store_size.
    + unfold array_at. rewrite !nth_overflow;
        [reflexivity|lia|rewrite list_set_length; lia].
  - now rewrite list_set_nth_other.
Qed.

Lemma np_array_old (h : heap) (value : pylist F) (k : nat) :
  (k < length h)%nat -> array_at (fst (np_array h value)) k = array_at h k.
Proof. intros Hk. unfold np_array, array_at. cbn. now rewrite app_nth1. Qed.

Lemma np_array_new (h : heap) (value : pylist F) :
  array_at (fst (np_array h value)) (snd (np_array h value))
  = asarray value.
Proof.
  unfold np_array, array_at. cbn.
  rewrite app_nth2 by lia. now rewrite Nat.sub_diag.
Qed.

(** *** [set] over a concatenation: it stops at the first raise *)

Lemma set_app (s : heap * object) (kws1 kws2 : list kwarg) :
  set s (kws1 ++ kws2)
  = match set s kws1 with
    | (s1, Done _) => set s1 kws2
    | (s1, Raised e) => (s1, Raised e)
    end.
Proof.
  revert s; induction kws1 as [|kw kws1 IH]; intros s; [reflexivity|].
  cbn [app set]. destruct (set_item s kw) as [s' [u|e]]; [apply IH|reflexivity].
Qed.

(** *** The item keys *)

Lemma set_item_n_key (s : heap * object) (i : nat) (x : F)
    (ok : reserved (n_key i) = false) :
  (i <= 3)%nat -> set_item s (kw_float (n_key i) x ok) = set_n_item s i x.
Proof.
  intros Hi. destruct s as [h self].
  destruct i as [|[|[|[|i]]]]; try lia; reflexivity.
Qed.

Lemma set_item_J0ratio_key (s : heap * object) (i : nat) (x : F)
    (ok : reserved (J0ratio_key i) = false) :
  (i <= 3)%nat ->
  set_item s (kw_float (J0ratio_key i) x ok) = set_J0ratio_item s i x.
Proof.
  intros Hi. destruct s as [h self].
  destruct i as [|[|[|[|i]]]]; try lia; reflexivity.
Qed.

Lemma set_n_item_out_of_range (s : heap * object) (i : nat) (x : F) :
  (size (array_at (fst s) (attr_n (snd s))) <= i)%nat ->
  set_n_item s i x = (s, Raised IndexError).
Proof.
  destruct s as [h self]. cbn [fst snd]. intros Hi.
  unfold set_n_item, setitem.
  now rewrite (proj2 (Nat.ltb_ge _ _) Hi).
Qed.

Lemma set_n_item_in_range (s : heap * object) (i : nat) (x : F) :
  (i < size (array_at (fst s) (attr_n (snd s))))%nat ->
  set_n_item s i x
  = ((list_set (fst s) (attr_n (snd s))
        (store (array_at (fst s) (attr_n (snd s))) i x), snd s),
     Done tt).
Proof.
  destruct s as [h self]. cbn [fst snd]. intros Hi.
  unfold set_n_item, setitem.
  now rewrite (proj2 (Nat.ltb_lt _ _) Hi).
Qed.

(** *** What a keyword leaves alone *)

(** A keyword other than [n] and [J0ratio] keeps the two addresses and the
    size of every array. *)
Lemma set_item_keeps (s : heap * object) (kw : kwarg) :
  keeps_arrays kw = true ->
  attr_n (snd (fst (set_item s kw))) = attr_n (snd s)
  /\ attr_J0ratio (snd (fst (set_item s kw))) = attr_J0ratio (snd s)
  /\ forall k, size (array_at (fst (fst (set_item s kw))) k)
               = size (array_at (fst s) k).
Proof.
  destruct s as [h self]. intros Hk.
  assert (Hn : forall i x,
    attr_n (snd (fst (set_n_item (h, self) i x))) = attr_n self
    /\ attr_J0ratio (snd (fst (set_n_item (h, self) i x)))
       = attr_J0ratio self
    /\ forall k, size (array_at (fst (fst (set_n_item (h, self) i x))) k)
                 = size (array_at h k)).
  { intros i x. unfold set_n_item.
    pose proof (setitem_size h (attr_n self) i x) as Hl.
    destruct (setitem h (attr_n self) i x) as [h' r]. cbn in *. auto. }
  assert (Hr : forall i x,
    attr_n (snd (fst (set_J0ratio_item (h, self) i x))) = attr_n self
    /\ attr_J0ratio (snd (fst (set_J0ratio_item (h, self) i x)))
       = attr_J0ratio self
    /\ forall k,
         size (array_at (fst (fst (set_J0ratio_item (h, self) i x))) k)
         = size (array_at h k)).
  { intros i x. unfold set_J0ratio_item.
    destruct (attr_J0ratio self) as [l|] eqn:El; [|cbn; rewrite El; auto].
    pose proof (setitem_size h l i x) as Hl.
    destruct (setitem h l i x) as [h' r]. cbn in *. rewrite El. auto. }
  destruct kw as [value|value|value|value|value|value|key value ok];
    try discriminate; cbn [set_item];
    repeat match goal with
           | |- context [if ?b then _ else _] => destruct b
           end;
    try apply Hn; try apply Hr; cbn; auto.
Qed.

Lemma set_keeps (kwargs : list kwarg) (s : heap * object) :
  Forall (fun kw => keeps_arrays kw = true) kwargs ->
  attr_n (snd (fst (set s kwargs))) = attr_n (snd s)
  /\ attr_J0ratio (snd (fst (set s kwargs))) = attr_J0ratio (snd s)
  /\ forall k, size (array_at (fst (fst (set s kwargs))) k)
               = size (array_at (fst s) k).
Proof.
  intros Hall. revert s.
  induction Hall as [|kw kwargs Hkw _ IH]; intros s; [cbn; auto|].
  cbn [set]. destruct (set_item_keeps s kw Hkw) as [E1 [E2 E3]].
  destruct (set_item s kw) as [s' [u|e]]; cbn [fst snd] in *.
  - destruct (IH s') as [I1 [I2 I3]].
    rewrite I1, I2. repeat split; auto.
    intros k. now rewrite I3.
  - auto.
Qed.

Lemma sizes_agree_J0 (h : heap) (self : object) :
  sizes_agree h self ->
  exists js,
    getattr_J0 h self = Done (ndarray js)
    /\ length js = size (array_at h (attr_n self)).
Proof.
  intros [lr [Hr Hlen]]. unfold getattr_J0. rewrite Hr.
  destruct (@J0_same_size _ _ (view h self)
              (values (array_at h (attr_n self)))
              (values (array_at h lr))) as [js [HJ [Hl _]]].
  - reflexivity.
  - unfold view. now rewrite Hr.
  - now rewrite !values_length.
  - exists js. rewrite HJ. split; [reflexivity|].
    now rewrite Hl, values_length.
Qed.

Lemma sizes_differ_J0 (h : heap) (self : object) (lr : nat) :
  attr_J0ratio self = Some lr ->
  size (array_at h (attr_n self)) <> size (array_at h lr) ->
  J0 (view h self) = scalar np_nan.
Proof.
  intros Hr Hlen.
  apply (@J0_different_sizes _ _ (view h self)
           (values (array_at h (attr_n self))) (values (array_at h lr)));
    [reflexivity| |now rewrite !values_length].
  unfold view. now rewrite Hr.
Qed.

(** *** Well-formed objects *)

Lemma set_item_well_formed (s : heap * object) (kw : kwarg) :
  well_formed (fst s) (snd s) ->
  well_formed (fst (fst (set_item s kw))) (snd (fst (set_item s kw))).
Proof.
  destruct s as [h self]. cbn [fst snd]. intros [Wn Wr].
  assert (Hn : forall i x,
    well_formed (fst (fst (set_n_item (h, self) i x)))
                (snd (fst (set_n_item (h, self) i x)))).
  { intros i x. unfold set_n_item, setitem.
    destruct (i <? size (array_at h (attr_n self)))%nat; cbn [fst snd];
      split; try rewrite list_set_length; auto. }
  assert (Hr : forall i x,
    well_formed (fst (fst (set_J0ratio_item (h, self) i x)))
                (snd (fst (set_J0ratio_item (h, self) i x)))).
  { intros i x. unfold set_J0ratio_item.
    destruct (attr_J0ratio self) as [l|] eqn:El; unfold setitem;
      [destruct (i <? size (array_at h l))%nat|]; cbn [fst snd];
      (split; [try rewrite list_set_length; exact Wn|]);
      intros lr' E; try rewrite list_set_length; apply Wr; congruence. }
  destruct kw as [value|value|value|value|value|value|key value ok];
    cbn [set_item];
    repeat match goal with
           | |- context [if ?b then _ else _] => destruct b
           end;
    try apply Hn; try apply Hr; cbn [fst snd np_array];
    try (split; cbn; auto; fail).
  - (* n *)
    split; cbn; rewrite length_app; cbn; [lia|].
    intros lr E. specialize (Wr lr E). lia.
  - (* J0ratio *)
    split; cbn; rewrite length_app; cbn; [lia|].
    intros lr E. inversion E. lia.
Qed.

Lemma set_well_formed (kwargs : list kwarg) (s : heap * object) :
  well_formed (fst s) (snd s) ->
  well_formed (fst (fst (set s kwargs))) (snd (fst (set s kwargs))).
Proof.
  revert s. induction kwargs as [|kw kwargs IH]; intros s W; [exact W|].
  cbn [set]. pose proof (set_item_well_formed s kw W) as W'.
  destruct (set_item s kw) as [s' [u|e]]; cbn [fst snd] in *; auto.
Qed.

End ObjectFacts.

(** ** Binary64 satisfies the order law *)

Lemma SFcompare_swap (x y : spec_float) :
  SFcompare y x = option_map CompOpp (SFcompare x y).
Proof.
  destruct x as [sx|sx| |sx mx ex], y as [sy|sy| |sy my ey]; simpl;
    try reflexivity;
    try (destruct sx; reflexivity); try (destruct sy; reflexivity);
    try (destruct sx, sy; reflexivity).
  pose proof (Pos.compare_cont_antisym mx my Eq) as Hm. simpl in Hm.
  destruct sx, sy; try reflexivity; f_equal;
    rewrite (Z.compare_antisym ex ey);
    destruct (ex ?= ey)%Z; simpl; try reflexivity.
  - now rewrite Hm.
  - now rewrite <- Hm.
Qed.

Lemma binary64_leb_not_gt (a b : float) :
  PrimFloat.leb a b = true -> PrimFloat.ltb b a = false.
Proof.
  rewrite FloatAxioms.leb_spec, FloatAxioms.ltb_spec. unfold SFleb, SFltb.
  rewrite (SFcompare_swap (Prim2SF a) (Prim2SF b)).
  destruct (SFcompare (Prim2SF a) (Prim2SF b)) as [[]|]; simpl; congruence.
Qed.

#[global] Instance Binary64_laws : NpFloatLaws float.
Proof. constructor. exact binary64_leb_not_gt. Qed.

(** ** Exact arithmetic: computing with finite values *)

Module ExactFacts.

Import Exact.
Local Open Scope R_scope.

Lemma Rltb_true (a b : R) : a < b -> Rltb a b = true.
Proof. intros Hab. unfold Rltb. destruct (Rlt_dec a b); [reflexivity|contradiction]. Qed.

Lemma Rltb_false (a b : R) : ~ a < b -> Rltb a b = false.
Proof. intros Hab. unfold Rltb. destruct (Rlt_dec a b); [contradiction|reflexivity]. Qed.

Lemma Rleb_true (a b : R) : a <= b -> Rleb a b = true.
Proof. intros Hab. unfold Rleb. destruct (Rle_dec a b); [reflexivity|contradiction]. Qed.

Lemma Rleb_true_inv (a b : R) : Rleb a b = true -> a <= b.
Proof. unfold Rleb. destruct (Rle_dec a b); [auto|discriminate]. Qed.

Lemma Reqb_true (a b : R) : a = b -> Reqb a b = true.
Proof. intros Hab. unfold Reqb. destruct (Req_dec_T a b); [reflexivity|contradiction]. Qed.

Lemma Reqb_false (a b : R) : a <> b -> Reqb a b = false.
Proof. intros Hab. unfold Reqb. destruct (Req_dec_T a b); [contradiction|reflexivity]. Qed.

Lemma xleb_not_gt (a b : xreal) : xleb a b = true -> xltb b a = false.
Proof.
  destruct a as [a| | |], b as [b| | |]; simpl; try reflexivity; try discriminate.
  intros Hab. apply Rleb_true_inv in Hab. apply Rltb_false. lra.
Qed.

#[global] Instance Exact_laws : NpFloatLaws xreal.
Proof. constructor. exact xleb_not_gt. Qed.

Lemma fl_fin (z : Z) : fl z = Fin (IZR z).
Proof. unfold fl. simpl. unfold xlit. simpl. f_equal. lra. Qed.

Lemma xdiv_fin (a b : R) : b <> 0 -> xdiv (Fin a) (Fin b) = Fin (a / b).
Proof. intros Hb. simpl. now rewrite (Reqb_false Hb). Qed.

Lemma xpow_pos (a b : R) : 0 < a -> xpow (Fin a) (Fin b) = Fin (Rpower a b).
Proof.
  intros Ha. unfold xpow. simpl.
  unfold Reqb at 1. destruct (Req_dec_T b 0) as [Eb|Eb].
  - simpl. subst b. now rewrite Rpower_O.
  - unfold Reqb. destruct (Req_dec_T a 1) as [Ea|Ea].
    + simpl. subst a. unfold Rpower. rewrite ln_1, Rmult_0_r, exp_0. reflexivity.
    + simpl. now rewrite (Rltb_true Ha).
Qed.

Lemma Rpower_3 (a : R) : 0 < a -> Rpower a 3 = a * a * a.
Proof.
  intros Ha. replace 3 with (INR 3) by (simpl; lra).
  rewrite Rpower_pow by assumption.
  simpl. ring.
Qed.

Lemma Rpower_2 (a : R) : 0 < a -> Rpower a 2 = a * a.
Proof.
  intros Ha. replace 2 with (INR 2) by (simpl; lra).
  rewrite Rpower_pow by assumption.
  simpl. ring.
Qed.

(** Five terms of Machin's series for [atan (1/3)] and [atan (1/7)]. *)
Lemma PI_bounds : 31415 / 10000 < PI < 31417 / 10000.
Proof.
  pose proof (PI_2_3_7_ineq 2) as [Hlo Hhi].
  unfold PI_2_3_7_tg, tg_alt, Ratan_seq in Hlo, Hhi.
  simpl in Hlo, Hhi.
  split; lra.
Qed.

Lemma lit_fin (m e : Z) : lit m e = Fin (IZR m * powerRZ 10 e).
Proof. reflexivity. Qed.

(** [DB_PREFIX] is the real number [2 pi e (k/h)^3 / c^2 / 1e4], which is
    1.0133e-8 to five digits. *)
Lemma DB_PREFIX_exact :
  exists p : R,
    @DB_PREFIX xreal _ = Fin p /\
    101325 / 10 ^ 13 < p < 101335 / 10 ^ 13.
Proof.
  unfold DB_PREFIX. rewrite !fl_fin, lit_fin.
  cbn [np_pi con_e con_k con_h con_c xreal_ops fmul fdiv np_power].
  rewrite (@xdiv_fin (1380649 / 10 ^ 29) (662607015 / 10 ^ 42))
    by (apply Rgt_not_eq; lra).
  rewrite xpow_pos. 2:{ apply Rdiv_lt_0_compat; lra. }
  rewrite xpow_pos by lra.
  rewrite Rpower_3. 2:{ apply Rdiv_lt_0_compat; lra. }
  rewrite Rpower_2 by lra.
  cbn [xmul].
  rewrite xdiv_fin by lra.
  rewrite xdiv_fin. 2:{ simpl. lra. }
  eexists; split; [reflexivity|].
  pose proof PI_bounds as [Hlo Hhi].
  simpl powerRZ.
  split; lra.
Qed.

Lemma DB_PREFIX_fin :
  @DB_PREFIX xreal _ = Fin (value DB_PREFIX)
  /\ 101325 / 10 ^ 13 < value DB_PREFIX < 101335 / 10 ^ 13.
Proof.
  destruct DB_PREFIX_exact as [p [E B]]. rewrite E. simpl. auto.
Qed.

Lemma k_q_fin : @k_q xreal _ = Fin (value k_q) /\ 0 < value k_q.
Proof.
  unfold k_q. cbn [con_k con_e xreal_ops fdiv].
  rewrite xdiv_fin by lra. simpl value. split; [reflexivity|].
  apply Rdiv_lt_0_compat; lra.
Qed.

Lemma TK_fin (tc : R) : TK (Fin tc) = Fin (tc + 27315 / 100).
Proof. reflexivity. Qed.

Lemma Vth_fin (j : Junction xreal) (tc : R) :
  TC j = Fin tc -> Vth j = Fin (value k_q * (tc + 27315 / 100)).
Proof.
  intros E. unfold Vth. rewrite E, TK_fin.
  destruct k_q_fin as [-> _]. reflexivity.
Qed.

(** For a positive absolute temperature [Jdb] is a real number, given by the
    closed form, and positive. *)
Lemma Jdb_fin (j : Junction xreal) (eg tc : R) :
  Eg j = Fin eg -> TC j = Fin tc -> 0 < tc + 27315 / 100 ->
  let T := tc + 27315 / 100 in
  let x := eg / (value k_q * T) in
  Jdb j = Fin (value DB_PREFIX * T ^ 3 * (x ^ 2 + 2 * x + 2) * exp (- x)).
Proof.
  intros HE HT Tpos T x. unfold Jdb.
  rewrite (Vth_fin j HT), HE, HT, TK_fin, !fl_fin.
  destruct k_q_fin as [_ Hk]. destruct DB_PREFIX_fin as [Hp _].
  set (p := value DB_PREFIX) in *. rewrite Hp.
  cbn [fdiv xreal_ops]. rewrite xdiv_fin.
  2:{ apply Rgt_not_eq. apply Rmult_lt_0_compat; assumption. }
  cbn [np_power xreal_ops]. rewrite xpow_pos by assumption.
  rewrite Rpower_3 by assumption.
  cbn [fmul fadd fsub fneg np_exp xreal_ops xmul xadd xsub xopp xexp].
  f_equal. fold T. fold x. ring.
Qed.

Lemma Jdb_pos (j : Junction xreal) (eg tc : R) :
  Eg j = Fin eg -> TC j = Fin tc -> 0 < tc + 27315 / 100 ->
  Jdb j = Fin (value (Jdb j)) /\ 0 < value (Jdb j).
Proof.
  intros HE HT Tpos. rewrite (Jdb_fin j HE HT Tpos). simpl value.
  split; [reflexivity|].
  destruct DB_PREFIX_fin as [_ [Hp _]].
  set (T := tc + 27315 / 100) in *.
  set (x := eg / (value k_q * T)).
  assert (0 < x ^ 2 + 2 * x + 2) by nra.
  assert (0 < T ^ 3) by (apply pow_lt; assumption).
  pose proof (exp_pos (- x)).
  assert (0 < value DB_PREFIX) by lra.
  repeat apply Rmult_lt_0_compat; try assumption; lra.
Qed.

(** [e^u] tends to 1 as [u] tends to 0 from the right. *)
Lemma exp_limit_0 (eps : R) :
  0 < eps ->
  exists alp, 0 < alp /\ forall u, 0 < u < alp -> Rabs (exp u - 1) < eps.
Proof.
  intros Heps.
  pose proof (derivable_continuous_pt exp 0 (derivable_pt_exp 0)) as Hc.
  destruct (Hc eps Heps) as [alp [Halp Hlim]].
  exists alp. split; [exact Halp|].
  intros u [Hu0 Hu1].
  specialize (Hlim u). rewrite exp_0 in Hlim.
  unfold dist in Hlim; simpl in Hlim; unfold Rdist in Hlim.
  apply Hlim. split.
  - split; [exact I|]. lra.
  - rewrite Rminus_0_r. rewrite Rabs_pos_eq; lra.
Qed.

(** *** [Jem] to the right of 0 *)

Lemma Jem_fin_positive (j : Junction xreal) (eg tc ph v : R) :
  Eg j = Fin eg -> TC j = Fin tc -> 0 < tc + 27315 / 100 ->
  gamma j = Fin 0 -> Jphoto j = Fin ph -> 0 < v ->
  Jem j (Fin v)
  = Fin (value (Jdb j) * (exp (v / (value k_q * (tc + 27315 / 100))) - 1)).
Proof.
  intros HE HT Tpos Hg Hph Hv.
  destruct (Jdb_pos j HE HT Tpos) as [HJ _].
  destruct k_q_fin as [_ Hk].
  rewrite Jem_positive.
  2:{ rewrite fl_fin. cbn [fltb xreal_ops xltb]. apply Rltb_true. exact Hv. }
  rewrite HJ, (Vth_fin j HT), Hg, Hph, fl_fin.
  cbn [fdiv xreal_ops]. rewrite xdiv_fin.
  2:{ apply Rgt_not_eq. apply Rmult_lt_0_compat; assumption. }
  cbn [fmul fadd fsub fneg np_exp xreal_ops xmul xadd xsub xopp xexp value].
  f_equal. ring.
Qed.

Lemma Jem_right_limit (j : Junction xreal) (eg tc ph : R) :
  Eg j = Fin eg -> TC j = Fin tc -> 0 < tc + 27315 / 100 ->
  gamma j = Fin 0 -> Jphoto j = Fin ph ->
  forall eps, 0 < eps ->
  exists delta, 0 < delta /\
    forall v, 0 < v < delta ->
    exists y, Jem j (Fin v) = Fin y /\ Rabs y < eps.
Proof.
  intros HE HT Tpos Hg Hph eps Heps.
  destruct (Jdb_pos j HE HT Tpos) as [_ Hd].
  destruct k_q_fin as [_ Hk].
  set (d := value (Jdb j)) in *.
  set (vt := value k_q * (tc + 27315 / 100)).
  assert (Hvt : 0 < vt) by (apply Rmult_lt_0_compat; assumption).
  destruct (@exp_limit_0 (eps / d)) as [alp [Halp Hlim]].
  { apply Rdiv_lt_0_compat; assumption. }
  exists (alp * vt). split; [apply Rmult_lt_0_compat; assumption|].
  intros v [Hv0 Hv1].
  eexists. split; [apply (Jem_fin_positive j HE HT Tpos Hg Hph Hv0)|].
  fold d. fold vt.
  assert (Hu : 0 < v / vt < alp).
  { split; [apply Rdiv_lt_0_compat; assumption|].
    apply (Rmult_lt_reg_r vt); [assumption|].
    unfold Rdiv. rewrite Rmult_assoc, Rinv_l by lra. lra. }
  specialize (Hlim _ Hu).
  rewrite Rabs_mult, (Rabs_pos_eq d) by lra.
  apply (Rmult_lt_compat_l d) in Hlim; [|assumption].
  replace (d * (eps / d)) with eps in Hlim by (field; lra).
  exact Hlim.
Qed.

(** *** The round trip of [_J0init] and [J0] *)

Lemma nth_map_Fin (l : list R) (i : nat) :
  nth i (map Fin l) (Fin 0) = Fin (nth i l 0).
Proof. apply (map_nth Fin). Qed.

Lemma J0init_roundtrip (j : Junction xreal) (eg tc : R) (ns refs : list R) :
  Eg j = Fin eg -> TC j = Fin tc -> 0 < tc + 27315 / 100 ->
  n j = ndarray (map Fin ns) -> Forall (fun x => x <> 0) ns ->
  length ns = length refs ->
  fst (_J0init j (map Fin refs)) = 0%Z /\
  J0 (snd (_J0init j (map Fin refs))) = ndarray (map Fin refs).
Proof.
  intros HE HT Tpos Hn Hnz Hlen.
  destruct (Jdb_pos j HE HT Tpos) as [HJ Hd].
  destruct (@J0init_same_size _ _ j (map Fin ns) (map Fin refs) Hn)
    as [rs [Hinit [Hrs Hnth]]].
  { now rewrite !length_map. }
  rewrite Hinit. cbn [fst snd]. split; [reflexivity|].
  rewrite length_map in Hrs, Hnth.
  destruct (@J0_same_size _ _ (set_J0ratio j (ndarray rs)) (map Fin ns) rs)
    as [l [HJ0 [Hl Hlnth]]]; [exact Hn|reflexivity|now rewrite length_map|].
  rewrite HJ0. f_equal.
  rewrite length_map in Hl, Hlnth.
  apply (nth_ext _ _ (Fin 0) (Fin 0)); [rewrite length_map; lia|].
  intros i Hi. rewrite Hl in Hi.
  rewrite (Hlnth i (Fin 0) Hi), (Hnth i (Fin 0) Hi), !nth_map_Fin.
  rewrite Jdb_set_J0ratio, HJ, !fl_fin.
  set (d := value (Jdb j)) in *.
  assert (Hni : nth i ns 0 <> 0).
  { rewrite Forall_forall in Hnz. apply Hnz. now apply nth_In. }
  cbn [fmul fdiv np_power xreal_ops xmul].
  rewrite (xdiv_fin 1 Hni).
  rewrite xpow_pos by lra.
  set (P := Rpower (d * 1000) (1 / nth i ns 0)).
  assert (HP : 0 < P) by apply exp_pos.
  rewrite xdiv_fin by lra. cbn [xmul].
  rewrite xdiv_fin by lra.
  f_equal. field. lra.
Qed.

End ExactFacts.

(** ** The root finder: what [Scipy.brentq] raises *)

Module ScipyFacts.

Import Scipy.
Local Open Scope float_scope.




(** The iteration cap reached: [RuntimeError]. *)
Lemma brentq_loop_exhausted (f : float -> result (npscalar float))
    (xtol rtol : float) (s : brent) :
  brentq_loop f xtol rtol 0 s = Raise RuntimeError.
Proof. reflexivity. Qed.

Lemma opposite_sym (a b : float) : opposite a b = opposite b a.
Proof.
  unfold opposite.
  destruct (a =? 0), (b =? 0), (signbit a), (signbit b); reflexivity.
Qed.

Lemma SFeqb_zero (x : spec_float) :
  SFeqb x (S754_zero false) = true -> exists s, x = S754_zero s.
Proof.
  destruct x as [s|s| |s m e]; simpl; try discriminate.
  - intros _. now exists s.
  - destruct s; discriminate.
  - destruct s; discriminate.
Qed.

Lemma ltb_abs_zero (b c : float) : (c =? 0) = true -> (abs b <? abs c) = false.
Proof.
  rewrite FloatAxioms.eqb_spec. intros Hc.
  change (Prim2SF 0) with (S754_zero false) in Hc.
  destruct (SFeqb_zero _ Hc) as [s Hs].
  rewrite FloatAxioms.ltb_spec, !FloatAxioms.abs_spec, Hs.
  destruct (Prim2SF b) as [sb|sb| |sb m e]; reflexivity.
Qed.

Section Bracket.
Variable f : float -> result (npscalar float).
Variables xtol rtol : float.

Lemma brentq_loop_bracketed (iter : nat) :
  forall (s : brent) (x : float),
    invariant f s -> brentq_loop f xtol rtol iter s = Ok x ->
    bracketed f xtol rtol x.
Proof.
  induction iter as [|iter IH]; intros s x Inv; [discriminate|].
  destruct Inv as (Hcur & Hpre & Hp0 & HD).
  cbn [brentq_loop].
  set (s1 := if opposite (fpre s) (fcur s) then _ else s).
  assert (I1 : call f (xcur s1) = Ok (fcur s1) /\
               ((fcur s1 =? 0) = true \/
                (call f (xblk s1) = Ok (fblk s1) /\
                 opposite (fblk s1) (fcur s1) = true))).
  { subst s1. destruct (opposite (fpre s) (fcur s)) eqn:Ho; cbn.
    - split; [exact Hcur|]. right. split; [exact Hpre|exact Ho].
    - split; [exact Hcur|]. destruct HD as [HD|[HD|HD]]; auto; congruence. }
  clearbody s1. clear Hcur Hpre Hp0 HD s.
  destruct I1 as [Hcur HD].
  set (s2 := if abs (fblk s1) <? abs (fcur s1) then _ else s1).
  assert (I2 : call f (xcur s2) = Ok (fcur s2) /\
               ((fcur s2 =? 0) = true \/
                (call f (xblk s2) = Ok (fblk s2) /\
                 opposite (fblk s2) (fcur s2) = true))).
  { subst s2. destruct (abs (fblk s1) <? abs (fcur s1)) eqn:Hs; cbn; [|auto].
    destruct HD as [HD|[Hb Ho]].
    - now rewrite (ltb_abs_zero (fblk s1) HD) in Hs.
    - split; [exact Hb|]. right. split; [exact Hcur|].
      now rewrite opposite_sym. }
  clearbody s2. clear Hcur HD s1.
  destruct I2 as [Hcur HD].
  destruct ((fcur s2 =? 0) || _) eqn:Hstop.
  - intros Hx. inversion Hx; subst x. exists (fcur s2). split; [exact Hcur|].
    destruct (fcur s2 =? 0) eqn:Hz; [now left|].
    right. simpl in Hstop.
    destruct HD as [HD|[Hb Ho]]; [discriminate|].
    exists (xblk s2), (fblk s2). auto.
  - apply orb_false_iff in Hstop. destruct Hstop as [Hz _].
    destruct HD as [HD|[Hb Ho]]; [congruence|].
    match goal with |- context [let '(a, b) := ?p in _] => destruct p as [spre' scur'] end.
    match goal with |- context [call f ?xn] => set (xnew := xn) end.
    destruct (call f xnew) as [fnew|e] eqn:Hnew; [|discriminate].
    cbn [bind]. apply IH.
    unfold invariant; cbn. repeat split; auto.
    destruct (fnew =? 0) eqn:Hn0; [now left|right].
    unfold opposite in *. rewrite Hz, Hn0 in *.
    destruct (signbit (fblk s2)), (signbit (fcur s2)), (signbit fnew),
      (fblk s2 =? 0); simpl in *; auto; discriminate.
Qed.

Theorem brentq_bracketed (a b : float) (maxiter : Z) (x : float) :
  brentq f a b xtol rtol maxiter = Ok x -> bracketed f xtol rtol x.
Proof.
  unfold brentq.
  destruct (xtol <=? 0); [discriminate|].
  destruct (rtol <? 0x1p-52); [discriminate|].
  destruct (call f a) as [fa|e] eqn:Ha; [|discriminate].
  destruct (call f b) as [fb|e] eqn:Hb; [|discriminate].
  cbn [bind].
  destruct (fa =? 0) eqn:Za.
  { intros Hx; inversion Hx; subst x. exists fa. auto. }
  destruct (fb =? 0) eqn:Zb.
  { intros Hx; inversion Hx; subst x. exists fb. auto. }
  destruct (Bool.eqb (signbit fa) (signbit fb)) eqn:Hs; [discriminate|].
  apply brentq_loop_bracketed.
  unfold invariant; cbn. repeat split; auto.
  right; left. unfold opposite. now rewrite Za, Zb, Hs.
Qed.

End Bracket.

End ScipyFacts.

(** ** The literals and constants on binary64 *)

Example binary64_constants :
  @VTOL float _ = 0.0001%float
  /\ @EPSREL float _ = 1e-15%float
  /\ @VLIM_REVERSE float _ = 10%float
  /\ @VLIM_FORWARD float _ = 3%float
  /\ @J0scale float _ = 1000%float
  /\ @k_q float _ = 8.6173332621451788e-05%float
  /\ @DB_PREFIX float _ = 1.0132826721547537e-08%float.
Proof. vm_compute. repeat split. Qed.

(** * The claims *)

(** C1. [notdiode()] returns true exactly when [pn == 0] or the sum of the
    saturation currents [J0] (the loop's [jsum]) equals zero; and when it
    returns true, [Vdiode(J)] and [Vmid(Vtot)] return [0.] for every input,
    whatever the root finder. *)
Theorem notdiode_spec :
  forall (F : Type) (ops : NpFloat F) (j : Junction F),
    (notdiode j = Ok true <->
     pn j = 0%Z \/
     exists js, J0 j = ndarray js /\
                (fold_left fadd js (fl 0) == fl 0)%np = true)
    /\ (notdiode j = Ok true ->
        forall brentq (J Vtot : F),
          Vdiode brentq j J = Ok (fl 0) /\ Vmid brentq j Vtot = Ok (fl 0)).
Proof.
  intros F ops j. split.
  - apply notdiode_true_iff.
  - intros Hn brentq J Vtot. split.
    + now apply Vdiode_notdiode.
    + now apply Vmid_notdiode.
Qed.

Lemma notdiode_spec_witness :
  notdiode Examples.resistor = Ok true /\
  Vdiode Scipy.brentq Examples.resistor 0.01%float = Ok 0%float /\
  Vmid Scipy.brentq Examples.resistor 0.5%float = Ok 0%float.
Proof.
  assert (Hn : notdiode Examples.resistor = Ok true) by reflexivity.
  split; [exact Hn|].
  exact (proj2 (@notdiode_spec float Binary64.float_ops Examples.resistor) Hn
           Scipy.brentq 0.01%float 0.5%float).
Defined.




(** The short-circuit end: with [J = -Jext] the diode voltage is next to 0. *)
Example Vdiode_short_circuit :
  Vdiode Scipy.brentq Examples.junc (-0.04)%float
  = Ok 6.7259174468825306e-06%float.
Proof. vm_compute. reflexivity. Qed.

(** On [Junction(RBB='bishop')] the base of the bishop power is negative
    below -5.5 V and the function is complex there; [brentq] goes by its
    real part, and [Vdiode] returns a voltage.  With [Gsh] = 0.001 the root
    lies in that range. *)
Example Vdiode_bishop :
  Vdiode Scipy.brentq Examples.junc_bishop 0%float
  = Ok 0.78495505549373445%float
  /\ Vdiode Scipy.brentq Examples.junc_bishop_Gsh 0%float
     = Ok (-8.3027314836423312)%float
  /\ Jparallel Examples.junc_bishop_Gsh (py_float (-10)%float) 0.04%float
     = Ok (complex128 0.037689353725012517 0.014881019427781479)%float.
Proof. vm_compute. repeat split. Qed.

(** C3, as the code has it.  [_dV(Vmid, Vtot)] is
    [Vtot - Vmid + Jparallel(Vmid, Jphoto) * Rser].  For a junction that is a
    diode, [Vmid(Vtot)] returns what [brentq] finds for [v -> _dV(v, Vtot)]
    on the bracket from -10 to 3 with [xtol] = 1e-4, [rtol] = 1e-15 and
    [maxiter] = 1000, and NaN when [brentq] raises.  With SciPy's [brentq]
    on binary64, a voltage [v] that is returned and is not NaN is a zero of
    [_dV(., Vtot)] or lies within the tolerance, measured in volts along
    [v], of a sign change of it: nothing bounds the residual
    [_dV(v, Vtot)] itself. *)
Theorem dV_Vmid_spec :
  (forall (F : Type) (ops : NpFloat F) (j : Junction F) (v : pynumber F)
          (Vtot : F),
     (forall J : F,
        Jparallel j v (Jphoto j) = Ok (float64 J) ->
        _dV j v Vtot = Ok (float64 (Vtot - float_of v + J * Rser j)%np))
     /\ (forall J : npscalar F,
           Jparallel j v (Jphoto j) = Ok J ->
           _dV j v Vtot
           = Ok (np_add (float64 (Vtot - float_of v)%np)
                   (np_mul J (float64 (Rser j)))))
     /\ (forall e, Jparallel j v (Jphoto j) = Raise e ->
           _dV j v Vtot = Raise e))
  /\ (forall (F : Type) (ops : NpFloat F)
             (brentq : (F -> result (npscalar F)) -> F -> F -> F -> F -> Z
                       -> result F)
             (j : Junction F) (Vtot : F),
        notdiode j = Ok false ->
        let search :=
          brentq (fun v => _dV j (py_float v) Vtot)
            (- fl 10)%np (fl 3) (lit 1 (-4)) (lit 1 (-15)) 1000%Z in
        (forall v, search = Ok v -> Vmid brentq j Vtot = Ok v)
        /\ (forall e, search = Raise e -> Vmid brentq j Vtot = Ok np_nan))
  /\ (forall (j : Junction float) (Vtot v : float),
        notdiode j = Ok false ->
        Vmid Scipy.brentq j Vtot = Ok v -> is_nan v = false ->
        Scipy.bracketed (fun v => _dV j (py_float v) Vtot)
          0.0001%float 1e-15%float v).
Proof.
  split; [|split].
  - intros F ops j v Vtot. split; [|split].
    + intros J. apply dV_value_real.
    + intros J. apply dV_value.
    + intros e. apply dV_raises.
  - intros F ops brentq j Vtot Hn search.
    pose proof (Vmid_diode brentq j Vtot Hn) as HV. fold search in HV.
    split.
    + intros v Hs. now rewrite HV, Hs.
    + intros e Hs. now rewrite HV, Hs.
  - intros j Vtot v Hn HV Nv.
    rewrite (Vmid_diode Scipy.brentq j Vtot Hn) in HV.
    match type of HV with
    | Ok (try_except ?b _) = _ => destruct b as [x|e] eqn:Hb
    end; cbn [try_except] in HV; inversion HV; subst v.
    + exact (ScipyFacts.brentq_bracketed _ _ _ _ _ _ Hb).
    + discriminate Nv.
Qed.

Lemma dV_Vmid_spec_witness :
  notdiode Examples.junc_Rser10 = Ok false /\
  Vmid Scipy.brentq Examples.junc_Rser10 2%float
  = Ok 0.82642410896411234%float /\
  Scipy.bracketed (fun v => _dV Examples.junc_Rser10 (py_float v) 2%float)
    0.0001%float 1e-15%float 0.82642410896411234%float.
Proof.
  assert (Hn : notdiode Examples.junc_Rser10 = Ok false)
    by (vm_compute; reflexivity).
  assert (HV : Vmid Scipy.brentq Examples.junc_Rser10 2%float
               = Ok 0.82642410896411234%float)
    by (vm_compute; reflexivity).
  split; [exact Hn|]. split; [exact HV|].
  apply (proj2 (proj2 dV_Vmid_spec) Examples.junc_Rser10 2%float
           0.82642410896411234%float Hn HV).
  vm_compute. reflexivity.
Defined.

(** C3, as it is stated, fails: [Junction(Rser=10.)] is a diode with
    [Rser > 0], [Vmid(2.)] returns 0.826..., which is not NaN, and the
    residual [_dV] there is -1.29e-3, more than ten times the tolerance
    1e-4. *)
Lemma Vmid_residual_exceeds_VTOL :
  notdiode Examples.junc_Rser10 = Ok false /\
  (0 <? Rser Examples.junc_Rser10)%float = true /\
  Vmid Scipy.brentq Examples.junc_Rser10 2%float
  = Ok 0.82642410896411234%float /\
  is_nan 0.82642410896411234%float = false /\
  _dV Examples.junc_Rser10 (py_float 0.82642410896411234%float) 2%float
  = Ok (float64 (-0.0012937896681397554)%float) /\
  (abs (-0.0012937896681397554) <=? VTOL)%float = false.
Proof. vm_compute. repeat split. Qed.

(** The same on [Junction(RBB='bishop', Rser=10.)]: the bishop term does
    not keep [Vmid] from returning the voltage. *)
Example Vmid_bishop :
  Vmid Scipy.brentq Examples.junc_bishop_Rser10 2%float
  = Ok 0.82642410896411234%float.
Proof. vm_compute. reflexivity. Qed.

(** C4. [Jdb] is [DB_PREFIX * T^3 * (x^2 + 2x + 2) * e^(-x)] with
    [T = TC + 273.15], [Vth = (k/q) * T] and [x = Eg / Vth], whatever [Eg]
    and [TC].  In exact arithmetic [DB_PREFIX] is 1.0133e-8 to five
    digits, and for a positive absolute temperature [Jdb] is that real
    number. *)
Theorem Jdb_spec :
  (forall (F : Type) (ops : NpFloat F) (j : Junction F),
     let T := (TC j + con_zero_Celsius)%np in
     let Vth := (con_k / con_e * T)%np in
     let x := (Eg j / Vth)%np in
     Jdb j
     = (DB_PREFIX * T ** fl 3 * (x * x + fl 2 * x + fl 2) * np_exp (- x))%np)
  /\ (@DB_PREFIX Exact.xreal _ = Exact.Fin (Exact.value DB_PREFIX)
      /\ (101325 / 10 ^ 13 < Exact.value DB_PREFIX < 101335 / 10 ^ 13)%R)
  /\ (forall (j : Junction Exact.xreal) (eg tc : R),
        Eg j = Exact.Fin eg -> TC j = Exact.Fin tc ->
        (0 < tc + 27315 / 100)%R ->
        let T := (tc + 27315 / 100)%R in
        let x := (eg / (Exact.value k_q * T))%R in
        Exact.value k_q = (1380649 / 10 ^ 29 / (1602176634 / 10 ^ 28))%R
        /\ Jdb j
           = Exact.Fin (Exact.value DB_PREFIX * T ^ 3
                        * (x ^ 2 + 2 * x + 2) * exp (- x))%R).
Proof.
  split; [|split].
  - intros F ops j. apply Jdb_closed_form.
  - exact ExactFacts.DB_PREFIX_fin.
  - intros j eg tc HE HT Tpos T x. split.
    + unfold k_q. cbn [con_k con_e Exact.xreal_ops fdiv].
      rewrite ExactFacts.xdiv_fin by lra. reflexivity.
    + exact (ExactFacts.Jdb_fin j HE HT Tpos).
Qed.

Lemma Jdb_spec_witness :
  exists d : R,
    Jdb Examples.junc_exact = Exact.Fin d
    /\ d = (Exact.value DB_PREFIX * (25 + 27315 / 100) ^ 3
            * ((11 / 10 / (Exact.value k_q * (25 + 27315 / 100))) ^ 2
               + 2 * (11 / 10 / (Exact.value k_q * (25 + 27315 / 100))) + 2)
            * exp (- (11 / 10 / (Exact.value k_q * (25 + 27315 / 100)))))%R.
Proof.
  eexists. split; [|reflexivity].
  apply (proj2 (proj2 (proj2 Jdb_spec) Examples.junc_exact (11 / 10)%R 25%R
                  eq_refl eq_refl ltac:(lra))).
Defined.

(** C5. When [n] and [J0ratio] are arrays of one length N, [J0] is the
    array of length N whose i-th entry is
    [(Jdb * 1000)^(1/n_i) * J0ratio_i / 1000]; when their lengths differ,
    [J0] is the scalar NaN (a value: [J0] raises nothing). *)
Theorem J0_spec :
  forall (F : Type) (ops : NpFloat F) (j : Junction F) (ns rs : list F),
    n j = ndarray ns -> J0ratio j = ndarray rs ->
    (length ns = length rs ->
     exists l,
       J0 j = ndarray l /\ length l = length ns /\
       forall (i : nat) (d : F), (i < length ns)%nat ->
         nth i l d
         = ((Jdb j * fl 1000) ** (fl 1 / nth i ns d) * nth i rs d
            / fl 1000)%np)
    /\ (length ns <> length rs -> J0 j = scalar np_nan).
Proof.
  intros F ops j ns rs Hn Hr. split.
  - now apply J0_same_size.
  - now apply J0_different_sizes.
Qed.

Lemma J0_spec_witness :
  J0 Examples.junc
  = ndarray [1.3141250302231388e-15; 3.6250862475576181e-09]%float
  /\ J0 Examples.junc_mismatch = scalar PrimFloat.nan.
Proof.
  split.
  - destruct (proj1 (@J0_spec float Binary64.float_ops Examples.junc
                       [1; 2]%float [10; 10]%float eq_refl eq_refl) eq_refl)
      as [l [Hl _]].
    rewrite Hl. vm_compute in Hl. inversion Hl. reflexivity.
  - apply (proj2 (@J0_spec float Binary64.float_ops Examples.junc_mismatch
                    [1]%float [10; 10]%float eq_refl eq_refl)).
    simpl. lia.
Defined.

(** C6, at the failing input.  On [Junction()] both diodes pass the guard
    ([n_i > 0], [J0_i] finite), [np.exp(100 / Vth / 1)] overflows to
    infinity, and [Jmultidiodes(100.)] returns infinity: the overflowing
    term is added, not skipped. *)
Theorem Jmultidiodes_overflow_propagates :
  n Examples.junc = ndarray [1; 2]%float
  /\ J0 Examples.junc
     = ndarray [1.3141250302231388e-15; 3.6250862475576181e-09]%float
  /\ is_finite 1.3141250302231388e-15 = true
  /\ is_finite 3.6250862475576181e-09 = true
  /\ np_exp (100 / Vth Examples.junc / 1)%float = infinity
  /\ Jmultidiodes Examples.junc 100%float = Ok infinity.
Proof. vm_compute. repeat split. Qed.







(** An ideality factor 0 breaks the round trip as well: [1/0] is infinite,
    the power is 0, the ratio infinite and [J0] NaN. *)
Example J0init_zero_ideality :
  _J0init Examples.junc_n0 [1e-15]%float
  = (0%Z, set_J0ratio Examples.junc_n0 (ndarray [infinity]))
  /\ J0 (snd (_J0init Examples.junc_n0 [1e-15]%float))
     = ndarray [PrimFloat.nan].
Proof. vm_compute. split; reflexivity. Qed.

(** On [Junction()] the round trip is exact up to the last digits. *)
Example J0init_roundtrip_binary64 :
  J0 (snd (_J0init Examples.junc [1e-15; 1e-9]%float))
  = ndarray [1.0000000000000001e-15; 1.0000000000000003e-09]%float.
Proof. vm_compute. reflexivity. Qed.

(** C9. [Jem(V)] is [0.] for every [V <= 0], and
    [Jdb * (e^(V/Vth) - 1) + gamma * Jphoto] for every [V > 0].  In exact
    arithmetic, for a positive absolute temperature, a finite photocurrent
    and [gamma = 0], [Jem(V)] tends to 0, its value at 0, as [V] tends to 0
    from the right. *)
Theorem Jem_spec :
  (forall (F : Type) (ops : NpFloat F) (L : NpFloatLaws F)
          (j : Junction F) (V : F),
     ((V <=? fl 0)%np = true -> Jem j V = fl 0)
     /\ ((V >? fl 0)%np = true ->
         Jem j V
         = (Jdb j * (np_exp (V / Vth j) - fl 1) + gamma j * Jphoto j)%np))
  /\ (forall (j : Junction Exact.xreal) (eg tc ph : R),
        Eg j = Exact.Fin eg -> TC j = Exact.Fin tc ->
        (0 < tc + 27315 / 100)%R ->
        gamma j = Exact.Fin 0 -> Jphoto j = Exact.Fin ph ->
        Jem j (Exact.Fin 0) = Exact.Fin 0
        /\ forall eps : R, (0 < eps)%R ->
           exists delta : R, (0 < delta)%R /\
             forall v : R, (0 < v < delta)%R ->
             exists y : R,
               Jem j (Exact.Fin v) = Exact.Fin y /\ (Rabs y < eps)%R).
Proof.
  split.
  - intros F ops L j V. split.
    + apply Jem_nonpositive.
    + apply Jem_positive.
  - intros j eg tc ph HE HT Tpos Hg Hph. split.
    + rewrite (@Jem_nonpositive _ _ ExactFacts.Exact_laws).
      * rewrite ExactFacts.fl_fin. reflexivity.
      * rewrite ExactFacts.fl_fin. cbn. apply ExactFacts.Rleb_true. lra.
    + exact (ExactFacts.Jem_right_limit j HE HT Tpos Hg Hph).
Qed.

Lemma Jem_spec_witness :
  Jem Examples.junc (-1)%float = 0%float
  /\ Jem Examples.junc 0.5%float = 3.7186569514495051e-08%float
  /\ (Jem Examples.junc_exact (Exact.Fin 0) = Exact.Fin 0
      /\ forall eps : R, (0 < eps)%R ->
         exists delta : R, (0 < delta)%R /\
           forall v : R, (0 < v < delta)%R ->
           exists y : R,
             Jem Examples.junc_exact (Exact.Fin v) = Exact.Fin y
             /\ (Rabs y < eps)%R).
Proof.
  split; [|split].
  - apply (proj1 (proj1 Jem_spec float Binary64.float_ops Binary64_laws
                    Examples.junc (-1)%float)).
    reflexivity.
  - rewrite (proj2 (proj1 Jem_spec float Binary64.float_ops Binary64_laws
                      Examples.junc 0.5%float)) by reflexivity.
    vm_compute. reflexivity.
  - apply (proj2 Jem_spec Examples.junc_exact (11 / 10)%R 25%R
             (4 / 100 * 1 / 1 + 0)%R eq_refl eq_refl).
    + lra.
    + reflexivity.
    + unfold Jphoto. cbn. rewrite ExactFacts.Reqb_false by lra. reflexivity.
Defined.

(** C10. With [pn != 0] and [n] and [J0ratio] arrays of different lengths,
    [J0] is the scalar NaN, [notdiode()] raises [TypeError] on iterating
    over it, and [Vdiode] and [Vmid], which call [notdiode()] outside their
    [try], raise it too: they return neither 0 nor NaN. *)
Theorem mismatch_raises_TypeError :
  forall (F : Type) (ops : NpFloat F)
         (brentq : (F -> result (npscalar F)) -> F -> F -> F -> F -> Z
                   -> result F)
         (j : Junction F) (ns rs : list F) (J Vtot : F),
    pn j <> 0%Z -> n j = ndarray ns -> J0ratio j = ndarray rs ->
    length ns <> length rs ->
    J0 j = scalar np_nan
    /\ notdiode j = Raise TypeError
    /\ Vdiode brentq j J = Raise TypeError
    /\ Vmid brentq j Vtot = Raise TypeError.
Proof.
  intros F ops brentq j ns rs J Vtot Hp Hn Hr Hlen.
  pose proof (notdiode_mismatch j Hp Hn Hr Hlen) as Hnd.
  split; [|split; [|split]].
  - exact (J0_different_sizes j Hn Hr Hlen).
  - exact Hnd.
  - now apply Vdiode_raises.
  - now apply Vmid_raises.
Qed.

Lemma mismatch_raises_TypeError_witness :
  J0 Examples.junc_mismatch = scalar PrimFloat.nan
  /\ notdiode Examples.junc_mismatch = Raise TypeError
  /\ Vdiode Scipy.brentq Examples.junc_mismatch 0%float = Raise TypeError
  /\ Vmid Scipy.brentq Examples.junc_mismatch 0.5%float = Raise TypeError.
Proof.
  apply (@mismatch_raises_TypeError float Binary64.float_ops Scipy.brentq
           Examples.junc_mismatch [1]%float [10; 10]%float 0%float 0.5%float).
  - discriminate.
  - reflexivity.
  - reflexivity.
  - simpl. lia.
Defined.

(** * Further properties of the specification *)

(** [Jmultidiodes(V)] is the sum, taken from left to right from 0, of
    [J0_i * (e^(V/Vth/n_i) - 1)] over exactly the diodes with [n_i > 0] and a
    finite [J0_i]: no admitted term is left out. *)
Theorem Jmultidiodes_spec :
  forall (F : Type) (ops : NpFloat F) (j : Junction F) (V : F)
         (ns js : list F),
    n j = ndarray ns -> J0 j = ndarray js ->
    Jmultidiodes j V
    = Ok (fold_left fadd
            (map (fun d => (snd d * (np_exp (V / Vth j / fst d) - fl 1))%np)
               (filter (fun d => (fst d >? fl 0)%np && isfinite (snd d))
                  (combine ns js)))
            (fl 0)).
Proof. intros F ops j V ns js. apply Jmultidiodes_sum. Qed.

Lemma Jmultidiodes_spec_witness :
  Jmultidiodes Examples.junc 0.6%float = Ok 0.00044516538492876966%float.
Proof.
  rewrite (@Jmultidiodes_spec float Binary64.float_ops Examples.junc 0.6%float
             [1; 2]%float
             [1.3141250302231388e-15; 3.6250862475576181e-09]%float eq_refl).
  - vm_compute. reflexivity.
  - vm_compute. reflexivity.
Defined.

(** ** Objects: [set], [copy], [__init__] and [__str__] *)

(** [set(RBB=value)] switches a breakdown model on for the two strings
    ['JFG'] and ['bishop'] only.  For every other value, [None],
    ['pvmismatch'] or a misspelt name alike, it stores the method [None]
    without raising, and [JshuntRBB(V)] is the shunt current [V * Gsh]
    plus 0. *)
Theorem set_RBB_other_value :
  forall (F : Type) (ops : NpFloat F) (h : heap) (self : object)
         (value : option string) (V : pynumber F),
    value <> Some "JFG"%string -> value <> Some "bishop"%string ->
    set (h, self) [kw_RBB value]
    = ((h, with_RBB_dict self RBB_None), Done tt)
    /\ JshuntRBB (view h (with_RBB_dict self RBB_None)) V
       = Ok (float64 (float_of V * attr_Gsh self + fl 0)%np).
Proof.
  intros F ops h self value V H1 H2.
  assert (E : forall text, value <> Some text -> py_eq value text = false).
  { intros text Hv. destruct value as [v|]; [|reflexivity].
    apply String.eqb_neq. congruence. }
  split.
  - cbn [set set_item]. now rewrite (E _ H1), (E _ H2).
  - reflexivity.
Qed.

Lemma set_RBB_other_value_witness :
  set Examples.junction [kw_RBB (Some "pvmismatch"%string)]
  = ((fst Examples.junction,
      with_RBB_dict (snd Examples.junction) RBB_None), Done tt)
  /\ JshuntRBB
       (view (fst Examples.junction)
          (with_RBB_dict (snd Examples.junction) RBB_None))
       (py_float (-1)%float)
     = Ok (float64 (-1 * 0 + 0)%float).
Proof.
  apply (@set_RBB_other_value float Binary64.float_ops
           (fst Examples.junction) (snd Examples.junction)
           (Some "pvmismatch"%string) (py_float (-1)%float)); discriminate.
Defined.

(** [set] is not atomic.  When the keywords before ['n[i]'] succeed and the
    array [n] has no index [i], [set] raises [IndexError] at that keyword:
    the earlier keywords stay applied, the later ones are not. *)
Theorem set_stops_at_IndexError :
  forall (F : Type) (ops : NpFloat F) (s s1 : heap * object)
         (kws1 kws2 : list kwarg) (i : nat) (x : F)
         (ok : reserved (n_key i) = false),
    (i <= 3)%nat ->
    set s kws1 = (s1, Done tt) ->
    (size (array_at (fst s1) (attr_n (snd s1))) <= i)%nat ->
    set s (kws1 ++ kw_float (n_key i) x ok :: kws2) = (s1, Raised IndexError).
Proof.
  intros F ops s s1 kws1 kws2 i x ok Hi H1 Hlen.
  rewrite set_app, H1. cbn [set].
  rewrite set_item_n_key by exact Hi.
  now rewrite set_n_item_out_of_range.
Qed.

Lemma set_stops_at_IndexError_witness :
  set Examples.junction
    ([kw_float "Eg" 1.4%float eq_refl]
     ++ kw_float (n_key 2) 1.5%float eq_refl
        :: [kw_float "TC" 30%float eq_refl])
  = ((fst Examples.junction,
      with_float (snd Examples.junction) "Eg" 1.4%float),
     Raised IndexError).
Proof.
  apply (@set_stops_at_IndexError float Binary64.float_ops
           Examples.junction);
    [lia|reflexivity|vm_compute; lia].
Defined.

(** An invariant of [set]: keywords other than [n] and [J0ratio] keep the
    sizes of the two arrays equal, whether [set] returns or raises, so [J0]
    stays an array of that size. *)
Theorem set_keeps_sizes :
  forall (F : Type) (ops : NpFloat F) (h : heap) (self : object)
         (kwargs : list kwarg),
    Forall (fun kw => keeps_arrays kw = true) kwargs ->
    sizes_agree h self ->
    exists h' self' r,
      set (h, self) kwargs = ((h', self'), r)
      /\ sizes_agree h' self'
      /\ exists js,
           getattr_J0 h' self' = Done (ndarray js)
           /\ length js = size (array_at h (attr_n self)).
Proof.
  intros F ops h self kwargs Hall Hs.
  destruct (set_keeps (h, self) Hall) as [E1 [E2 E3]].
  destruct (set (h, self) kwargs) as [[h' self'] r].
  cbn [fst snd] in E1, E2, E3.
  exists h', self', r. split; [reflexivity|].
  assert (Hs' : sizes_agree h' self').
  { destruct Hs as [lr [Hr Hlen]]. exists lr. split; [congruence|].
    rewrite E1, !E3. exact Hlen. }
  split; [exact Hs'|].
  destruct (sizes_agree_J0 Hs') as [js [HJ Hl]].
  exists js. split; [exact HJ|]. now rewrite Hl, E1, E3.
Qed.

Lemma set_keeps_sizes_witness :
  exists h' self' r,
    set Examples.junction
      [kw_float "n[1]" 1.8%float eq_refl; kw_pn 1;
       kw_float "J0ratio[2]" 5%float eq_refl]
    = ((h', self'), r)
    /\ sizes_agree h' self'
    /\ exists js,
         getattr_J0 h' self' = Done (ndarray js)
         /\ length js
            = size (array_at (fst Examples.junction)
                      (attr_n (snd Examples.junction))).
Proof.
  apply (@set_keeps_sizes float Binary64.float_ops
           (fst Examples.junction) (snd Examples.junction)
           [kw_float "n[1]" 1.8%float eq_refl; kw_pn 1;
            kw_float "J0ratio[2]" 5%float eq_refl]).
  - repeat constructor.
  - exists 1%nat. split; reflexivity.
Defined.

(** [set(n=l)] alone, with a list [l] of another size than [J0ratio], on a
    junction with [pn != 0]: [set] returns, [J0] becomes the scalar NaN, and
    [notdiode], [Vdiode] and [Vmid] raise [TypeError] from then on. *)
Theorem set_n_alone_breaks_solvers :
  forall (F : Type) (ops : NpFloat F)
         (brentq : (F -> result (npscalar F)) -> F -> F -> F -> F -> Z
                   -> result F)
         (h : heap) (self : object) (lr : nat) (l : pylist F) (J Vtot : F),
    well_formed h self -> attr_J0ratio self = Some lr ->
    len l <> size (array_at h lr) -> attr_pn self <> 0%Z ->
    exists h' self',
      set (h, self) [kw_n l] = ((h', self'), Done tt)
      /\ n (view h' self') = ndarray (values (asarray l))
      /\ getattr_J0 h' self' = Done (scalar np_nan)
      /\ call_notdiode h' self' = Raised (Core TypeError)
      /\ Vdiode brentq (view h' self') J = Raise TypeError
      /\ Vmid brentq (view h' self') Vtot = Raise TypeError.
Proof.
  intros F ops brentq h self lr l J Vtot [Wn Wr] Hr Hlen Hpn.
  exists (h ++ [asarray l]), (with_n self (length h)).
  assert (Hn : n (view (h ++ [asarray l]) (with_n self (length h)))
               = ndarray (values (asarray l))).
  { unfold view. cbn [attr_n with_n n]. do 2 f_equal.
    apply (np_array_new h l). }
  assert (HR : J0ratio (view (h ++ [asarray l]) (with_n self (length h)))
               = ndarray (values (array_at h lr))).
  { unfold view. cbn [attr_J0ratio with_n J0ratio]. rewrite Hr.
    do 2 f_equal. apply (np_array_old h l). now apply Wr. }
  assert (Hlen' : length (values (asarray l))
                  <> length (values (array_at h lr))).
  { now rewrite !values_length, asarray_size. }
  pose proof (@notdiode_mismatch _ _ (view (h ++ [asarray l])
                                        (with_n self (length h)))
                _ _ Hpn Hn HR Hlen') as Hnd.
  split; [reflexivity|]. split; [exact Hn|]. split; [|split; [|split]].
  - unfold getattr_J0. cbn [attr_J0ratio with_n]. rewrite Hr. f_equal.
    exact (J0_different_sizes _ Hn HR Hlen').
  - unfold call_notdiode. cbn [attr_pn attr_J0ratio with_n]. rewrite Hr.
    destruct (Z.eqb_spec (attr_pn self) 0) as [E|_]; [contradiction|].
    now rewrite Hnd.
  - now apply Vdiode_raises.
  - now apply Vmid_raises.
Qed.

Lemma set_n_alone_breaks_solvers_witness :
  exists h' self',
    set Examples.junction [kw_n (list_float [1%float])]
    = ((h', self'), Done tt)
    /\ n (view h' self') = ndarray [1%float]
    /\ getattr_J0 h' self' = Done (scalar PrimFloat.nan)
    /\ call_notdiode h' self' = Raised (Core TypeError)
    /\ Vdiode Scipy.brentq (view h' self') 0%float = Raise TypeError
    /\ Vmid Scipy.brentq (view h' self') 0.5%float = Raise TypeError.
Proof.
  apply (@set_n_alone_breaks_solvers float Binary64.float_ops Scipy.brentq
           (fst Examples.junction) (snd Examples.junction)
           1%nat (list_float [1%float]) 0%float 0.5%float).
  - split; [vm_compute; lia|].
    intros lr E. vm_compute in E. inversion E. vm_compute. lia.
  - reflexivity.
  - vm_compute. lia.
  - discriminate.
Defined.

(** [set(n=l, J0ratio=r)] with two lists of one size, in either order of
    the keywords and whatever the arrays were: [n] and [J0ratio] become
    [l] and [r], and [J0] is an array of their size. *)
Theorem set_n_and_J0ratio :
  forall (F : Type) (ops : NpFloat F) (h : heap) (self : object)
         (l r : pylist F),
    len l = len r ->
    (exists h' self',
       set (h, self) [kw_n l; kw_J0ratio r] = ((h', self'), Done tt)
       /\ n (view h' self') = ndarray (values (asarray l))
       /\ J0ratio (view h' self') = ndarray (values (asarray r))
       /\ exists js, getattr_J0 h' self' = Done (ndarray js)
                     /\ length js = len l)
    /\ (exists h' self',
          set (h, self) [kw_J0ratio r; kw_n l] = ((h', self'), Done tt)
          /\ n (view h' self') = ndarray (values (asarray l))
          /\ J0ratio (view h' self') = ndarray (values (asarray r))
          /\ exists js, getattr_J0 h' self' = Done (ndarray js)
                        /\ length js = len l).
Proof.
  intros F ops h self l r Hlen.
  assert (Hlen' : length (values (asarray l)) = length (values (asarray r))).
  { now rewrite !values_length, !asarray_size. }
  assert (Hl : length (values (asarray l)) = len l).
  { now rewrite values_length, asarray_size. }
  assert (A1 : array_at ((h ++ [asarray l]) ++ [asarray r]) (length h)
               = asarray l).
  { unfold array_at. rewrite <- app_assoc, app_nth2 by lia.
    now rewrite Nat.sub_diag. }
  assert (A2 : array_at ((h ++ [asarray l]) ++ [asarray r])
                 (length (h ++ [asarray l])) = asarray r).
  { apply (np_array_new (h ++ [asarray l]) r). }
  assert (B1 : array_at ((h ++ [asarray r]) ++ [asarray l]) (length h)
               = asarray r).
  { unfold array_at. rewrite <- app_assoc, app_nth2 by lia.
    now rewrite Nat.sub_diag. }
  assert (B2 : array_at ((h ++ [asarray r]) ++ [asarray l])
                 (length (h ++ [asarray r])) = asarray l).
  { apply (np_array_new (h ++ [asarray r]) l). }
  split; do 2 eexists; (split; [reflexivity|]).
  - assert (Hn : n (view ((h ++ [asarray l]) ++ [asarray r])
                      (with_J0ratio (with_n self (length h))
                         (length (h ++ [asarray l]))))
                 = ndarray (values (asarray l))).
    { unfold view. cbn [attr_n with_n with_J0ratio n]. now rewrite A1. }
    assert (HR : J0ratio (view ((h ++ [asarray l]) ++ [asarray r])
                      (with_J0ratio (with_n self (length h))
                         (length (h ++ [asarray l]))))
                 = ndarray (values (asarray r))).
    { unfold view. cbn [attr_J0ratio with_n with_J0ratio J0ratio].
      now rewrite A2. }
    split; [exact Hn|]. split; [exact HR|].
    destruct (J0_same_size _ Hn HR Hlen') as [js [HJ [Hjs _]]].
    exists js. split; [|now rewrite Hjs].
    unfold getattr_J0. cbn [attr_J0ratio with_J0ratio]. now rewrite HJ.
  - assert (Hn : n (view ((h ++ [asarray r]) ++ [asarray l])
                      (with_n (with_J0ratio self (length h))
                         (length (h ++ [asarray r]))))
                 = ndarray (values (asarray l))).
    { unfold view. cbn [attr_n with_n with_J0ratio n]. now rewrite B2. }
    assert (HR : J0ratio (view ((h ++ [asarray r]) ++ [asarray l])
                      (with_n (with_J0ratio self (length h))
                         (length (h ++ [asarray r]))))
                 = ndarray (values (asarray r))).
    { unfold view. cbn [attr_J0ratio with_n with_J0ratio J0ratio].
      now rewrite B1. }
    split; [exact Hn|]. split; [exact HR|].
    destruct (J0_same_size _ Hn HR Hlen') as [js [HJ [Hjs _]]].
    exists js. split; [|now rewrite Hjs].
    unfold getattr_J0. cbn [attr_J0ratio with_n with_J0ratio]. now rewrite HJ.
Qed.

Lemma set_n_and_J0ratio_witness :
  (exists h' self',
     set Examples.junction
       [kw_n (list_float [1%float]); kw_J0ratio (list_float [1%float])]
     = ((h', self'), Done tt)
     /\ n (view h' self') = ndarray [1%float]
     /\ J0ratio (view h' self') = ndarray [1%float]
     /\ exists js, getattr_J0 h' self' = Done (ndarray js)
                   /\ length js = 1%nat)
  /\ (exists h' self',
        set Examples.junction
          [kw_J0ratio (list_float [1%float]); kw_n (list_float [1%float])]
        = ((h', self'), Done tt)
        /\ n (view h' self') = ndarray [1%float]
        /\ J0ratio (view h' self') = ndarray [1%float]
        /\ exists js, getattr_J0 h' self' = Done (ndarray js)
                      /\ length js = 1%nat).
Proof.
  apply (@set_n_and_J0ratio float Binary64.float_ops
           (fst Examples.junction) (snd Examples.junction)
           (list_float [1%float]) (list_float [1%float])).
  reflexivity.
Defined.

(** [copy] is shallow: the copy has the arrays of the original.  An item
    written through the copy ([set] with the key ['n[i]']) changes [n] of the
    original too: the item becomes the value when [n] is an array of
    [float64], and the value cast to [int64] when [n] is an array of
    [int64], as it is after [Junction(n=[1, 2])].  A whole array bound
    through the copy ([set(n=l)]) leaves the original as it was. *)
Theorem copy_shares_arrays :
  forall (F : Type) (ops : NpFloat F) (h : heap) (self : object)
         (i : nat) (x : F) (l : pylist F)
         (ok : reserved (n_key i) = false),
    well_formed h self ->
    (i < size (array_at h (attr_n self)))%nat -> (i <= 3)%nat ->
    (exists h',
       set (h, copy self) [kw_float (n_key i) x ok]
       = ((h', copy self), Done tt)
       /\ array_at h' (attr_n self) = store (array_at h (attr_n self)) i x
       /\ (forall a, array_at h (attr_n self) = float64_array a ->
             n (view h' self) = ndarray (list_set a i x))
       /\ (forall a, array_at h (attr_n self) = int64_array a ->
             n (view h' self)
             = ndarray
                 (map astype_float64 (list_set a i (astype_int64 x)))))
    /\ (exists h' other,
          set (h, copy self) [kw_n l] = ((h', other), Done tt)
          /\ n (view h' other) = ndarray (values (asarray l))
          /\ n (view h' self) = n (view h self)).
Proof.
  intros F ops h self i x l ok [Wn Wr] Hi Hi3. split.
  - eexists. cbn [set]. rewrite set_item_n_key by exact Hi3.
    rewrite set_n_item_in_range by exact Hi. cbn [fst snd copy].
    split; [reflexivity|].
    assert (A : array_at (list_set h (attr_n self)
                            (store (array_at h (attr_n self)) i x))
                  (attr_n self)
                = store (array_at h (attr_n self)) i x).
    { unfold array_at at 1. now apply list_set_nth_same. }
    split; [exact A|].
    split; intros a Ha; unfold view, copy; cbn [n]; rewrite A, Ha;
      reflexivity.
  - do 2 eexists. split; [reflexivity|]. split.
    + unfold view. cbn [attr_n with_n copy n]. do 2 f_equal.
      apply (np_array_new h l).
    + unfold view. cbn [n]. do 2 f_equal. now apply (np_array_old h l).
Qed.

Lemma copy_shares_arrays_witness :
  (exists h',
     set (fst Examples.junction_int, copy (snd Examples.junction_int))
       [kw_float (n_key 1) 1.8%float eq_refl]
     = ((h', copy (snd Examples.junction_int)), Done tt)
     /\ array_at h' (attr_n (snd Examples.junction_int))
        = int64_array [1; 1]%Z
     /\ n (view h' (snd Examples.junction_int)) = ndarray [1; 1]%float)
  /\ (exists h',
        set (fst Examples.junction, copy (snd Examples.junction))
          [kw_float (n_key 1) 1.8%float eq_refl]
        = ((h', copy (snd Examples.junction)), Done tt)
        /\ n (view h' (snd Examples.junction)) = ndarray [1; 1.8]%float)
  /\ (exists h' other,
        set (fst Examples.junction, copy (snd Examples.junction))
          [kw_n (list_float [1%float])]
        = ((h', other), Done tt)
        /\ n (view h' other) = ndarray [1%float]
        /\ n (view h' (snd Examples.junction)) = ndarray [1; 2]%float).
Proof.
  assert (Wi : well_formed (fst Examples.junction_int)
                 (snd Examples.junction_int)).
  { split; [vm_compute; lia|].
    intros lr E. vm_compute in E. inversion E. vm_compute. lia. }
  assert (Wf : well_formed (fst Examples.junction) (snd Examples.junction)).
  { split; [vm_compute; lia|].
    intros lr E. vm_compute in E. inversion E. vm_compute. lia. }
  split; [|split].
  - destruct (proj1 (@copy_shares_arrays float Binary64.float_ops
                       (fst Examples.junction_int)
                       (snd Examples.junction_int) 1%nat 1.8%float
                       (list_float [1%float]) eq_refl Wi
                       ltac:(vm_compute; lia) ltac:(lia)))
      as [h' [Hs [Ha [_ Hi]]]].
    exists h'. split; [exact Hs|]. split.
    + rewrite Ha. vm_compute. reflexivity.
    + rewrite (Hi [1; 2]%Z eq_refl). vm_compute. reflexivity.
  - destruct (proj1 (@copy_shares_arrays float Binary64.float_ops
                       (fst Examples.junction) (snd Examples.junction)
                       1%nat 1.8%float (list_float [1%float]) eq_refl Wf
                       ltac:(vm_compute; lia) ltac:(lia)))
      as [h' [Hs [_ [Hf _]]]].
    exists h'. split; [exact Hs|]. exact (Hf [1; 2]%float eq_refl).
  - exact (proj2 (@copy_shares_arrays float Binary64.float_ops
                    (fst Examples.junction) (snd Examples.junction)
                    1%nat 1.8%float (list_float [1%float]) eq_refl Wf
                    ltac:(vm_compute; lia) ltac:(lia))).
Defined.

(** [__str__] iterates over [zip(self.n, self.J0ratio, self.J0)]: it raises
    [AttributeError] for an object without [J0ratio] and [TypeError] when
    [n] and [J0ratio] differ in size, also for [pn = 0], where [notdiode]
    and the solvers work; it returns a string when the sizes agree. *)
Theorem str_spec :
  forall (F : Type) (ops : NpFloat F)
         (str_format : string -> list format_arg -> string)
         (str_dict : RBB F -> string) (h : heap) (self : object),
    (attr_J0ratio self = None ->
     __str__ str_format str_dict h self = Raised AttributeError)
    /\ (forall lr, attr_J0ratio self = Some lr ->
          size (array_at h (attr_n self)) <> size (array_at h lr) ->
          __str__ str_format str_dict h self = Raised (Core TypeError))
    /\ (sizes_agree h self ->
        exists text, __str__ str_format str_dict h self = Done text).
Proof.
  intros F ops str_format str_dict h self. split; [|split].
  - intros E. unfold __str__. now rewrite E.
  - intros lr E Hlen. unfold __str__.
    now rewrite E, (sizes_differ_J0 h self E Hlen).
  - intros Hs. destruct (sizes_agree_J0 Hs) as [js [HJ _]].
    destruct Hs as [lr [E _]]. unfold getattr_J0 in HJ. rewrite E in HJ.
    inversion HJ as [HJ']. unfold __str__. rewrite E, HJ'.
    eexists. reflexivity.
Qed.

Lemma str_spec_witness :
  __str__ (fun _ _ => EmptyString) (fun _ => EmptyString)
    (fst Examples.resistor_J0ref1) (snd Examples.resistor_J0ref1)
  = Raised AttributeError
  /\ call_notdiode (fst Examples.resistor_J0ref1)
       (snd Examples.resistor_J0ref1) = Done true.
Proof.
  split.
  - apply (proj1 (@str_spec float Binary64.float_ops
                    (fun _ _ => EmptyString) (fun _ => EmptyString)
                    (fst Examples.resistor_J0ref1)
                    (snd Examples.resistor_J0ref1))).
    reflexivity.
  - reflexivity.
Defined.

(** [Junction(...)] with [J0ref = None] stores its arguments: [area] as both
    [lightarea] and [totalarea], [n] and [J0ratio] as two new arrays, and
    the breakdown model that [set(RBB=RBB)] selects. *)
Theorem init_view :
  forall (F : Type) (ops : NpFloat F) (h : heap) (name : string)
         (Eg TC Gsh Rser area : F) (ns rs : pylist F) (RBB : option string)
         (Jext JLC : F) (pn : Z) (beta gamma : F),
    exists h' self,
      __init__ h name Eg TC Gsh Rser area ns rs None RBB Jext JLC pn beta
        gamma = (h', self)
      /\ well_formed h' self
      /\ attr_name self = name
      /\ view h' self
         = mkJunction Eg TC Jext Gsh Rser area area pn beta gamma JLC
             (ndarray (values (asarray ns))) (ndarray (values (asarray rs)))
             (if py_eq RBB "JFG"
              then RBB_JFG (fl 10) (lit 5 (-1)) (fl 0)
              else if py_eq RBB "bishop"
              then RBB_bishop (lit 328 (-2)) (fl 1) (- lit 55 (-1))%np
              else RBB_None).
Proof.
  intros F ops h name Eg TC Gsh Rser area ns rs RBB Jext JLC pn beta gamma.
  assert (A1 : array_at ((h ++ [asarray ns]) ++ [asarray rs]) (length h)
               = asarray ns).
  { unfold array_at. rewrite <- app_assoc, app_nth2 by lia.
    now rewrite Nat.sub_diag. }
  assert (A2 : array_at ((h ++ [asarray ns]) ++ [asarray rs])
                 (length (h ++ [asarray ns])) = asarray rs).
  { apply (np_array_new (h ++ [asarray ns]) rs). }
  unfold __init__. cbn [np_array set set_item fst snd].
  destruct (py_eq RBB "JFG"); [|destruct (py_eq RBB "bishop")];
    cbn [fst snd]; do 2 eexists; (split; [reflexivity|]);
    (split; [|split; [reflexivity|]]);
    try (unfold view;
         cbn [attr_n attr_J0ratio with_RBB_dict with_J0ratio attr_Eg attr_TC
              attr_Jext attr_Gsh attr_Rser attr_lightarea attr_totalarea
              attr_pn attr_beta attr_gamma attr_JLC attr_RBB_dict];
         rewrite A1, A2; reflexivity);
    (split; cbn [attr_n attr_J0ratio with_RBB_dict with_J0ratio];
     [rewrite !length_app; cbn [length]; lia|]);
    intros lr E; inversion E; rewrite !length_app; cbn [length]; lia.
Qed.

(** [Junction()] is the junction of the examples; after
    [Junction(n=[1, 2])] the array [n] holds ints, which the methods read
    as the floats 1. and 2. *)
Example init_defaults :
  view (fst Examples.junction) (snd Examples.junction) = Examples.junc
  /\ array_at (fst Examples.junction_int)
       (attr_n (snd Examples.junction_int)) = int64_array [1; 2]%Z
  /\ view (fst Examples.junction_int) (snd Examples.junction_int)
     = Examples.junc.
Proof. vm_compute. repeat split. Qed.

(** [Junction(..., J0ref=l)] with a list [l] of another size than [n]: the
    constructor returns, but the object has no attribute [J0ratio].
    Reading [J0] raises [AttributeError], and so do [__str__] and, for
    [pn != 0], [notdiode]. *)
Theorem init_J0ref_mismatch :
  forall (F : Type) (ops : NpFloat F)
         (str_format : string -> list format_arg -> string)
         (str_dict : RBB F -> string) (h : heap) (name : string)
         (Eg TC Gsh Rser area : F) (ns rs J0ref : pylist F)
         (RBB : option string) (Jext JLC : F) (pn : Z) (beta gamma : F),
    len ns <> len J0ref ->
    exists h' self,
      __init__ h name Eg TC Gsh Rser area ns rs (Some J0ref) RBB
        Jext JLC pn beta gamma = (h', self)
      /\ attr_J0ratio self = None
      /\ getattr_J0 h' self = Raised AttributeError
      /\ __str__ str_format str_dict h' self = Raised AttributeError
      /\ call_notdiode h' self
         = if (pn =? 0)%Z then Done true else Raised AttributeError.
Proof.
  intros F ops str_format str_dict h name Eg TC Gsh Rser area ns rs J0ref
    RBB Jext JLC pn beta gamma Hlen.
  unfold __init__. cbn [np_array]. unfold call_J0init.
  rewrite (@J0init_different_sizes _ _ _ (values (asarray ns))
             (values (asarray J0ref))).
  2:{ unfold view. cbn [attr_n n]. do 2 f_equal.
      apply (np_array_new h ns). }
  2:{ now rewrite !values_length, !asarray_size. }
  cbn [fst snd set set_item].
  destruct (py_eq RBB "JFG"); [|destruct (py_eq RBB "bishop")];
    do 2 eexists; (split; [reflexivity|]);
    (split; [reflexivity|]); (split; [reflexivity|]);
    (split; [reflexivity|]);
    unfold call_notdiode; cbn [attr_pn attr_J0ratio with_RBB_dict];
    reflexivity.
Qed.

Lemma init_J0ref_mismatch_witness :
  exists h' self,
    __init__ [] "junc" 1.1%float 25%float 0%float 0%float 1%float
      (list_float [1; 2]%float) (list_float [10; 10]%float)
      (Some (list_float [1e-15]%float)) None
      0.04%float 0%float (-1) 15%float 0%float = (h', self)
    /\ attr_J0ratio self = None
    /\ getattr_J0 h' self = Raised AttributeError
    /\ __str__ (fun _ _ => EmptyString) (fun _ => EmptyString) h' self
       = Raised AttributeError
    /\ call_notdiode h' self
       = if (-1 =? 0)%Z then Done true else Raised AttributeError.
Proof.
  apply (@init_J0ref_mismatch float Binary64.float_ops).
  simpl. lia.
Defined.

(** [Junction(..., J0ref=l)] with as many reference currents as ideality
    factors: the argument [J0ratio] is not used.  [J0ratio] of the new
    junction is the array of the
    [1000 * J0ref_i / (Jdb * 1000)^(1/n_i)], and its [J0] the array of the
    [(Jdb * 1000)^(1/n_i) * J0ratio_i / 1000]. *)
Theorem init_J0ref_sets_J0ratio :
  forall (F : Type) (ops : NpFloat F) (h : heap) (name : string)
         (Eg TC Gsh Rser area : F) (ns rs J0ref : pylist F)
         (RBB : option string) (Jext JLC : F) (pn : Z) (beta gamma : F),
    len ns = len J0ref ->
    exists h' self qs l,
      (forall rs' : pylist F,
         __init__ h name Eg TC Gsh Rser area ns rs' (Some J0ref) RBB
           Jext JLC pn beta gamma = (h', self))
      /\ n (view h' self) = ndarray (values (asarray ns))
      /\ J0ratio (view h' self) = ndarray qs
      /\ getattr_J0 h' self = Done (ndarray l)
      /\ length qs = len ns /\ length l = len ns
      /\ forall (i : nat) (d : F), (i < len ns)%nat ->
           nth i qs d
           = (fl 1000 * nth i (values (asarray J0ref)) d
              / (Jdb (view h' self) * fl 1000)
                ** (fl 1 / nth i (values (asarray ns)) d))%np
           /\ nth i l d
              = ((Jdb (view h' self) * fl 1000)
                 ** (fl 1 / nth i (values (asarray ns)) d)
                 * nth i qs d / fl 1000)%np.
Proof.
  intros F ops h name Eg TC Gsh Rser area ns rs J0ref RBB Jext JLC pn beta
    gamma Hlen.
  set (self0 := mkObject name Eg TC Jext Gsh Rser area area pn beta gamma
                  JLC (length h) None RBB_None).
  set (h1 := h ++ [asarray ns]).
  assert (Hn0 : n (view h1 self0) = ndarray (values (asarray ns))).
  { unfold view. cbn [attr_n self0 n]. do 2 f_equal.
    apply (np_array_new h ns). }
  assert (Hlen' : length (values (asarray ns))
                  = length (values (asarray J0ref))).
  { now rewrite !values_length, !asarray_size. }
  assert (Hl : length (values (asarray ns)) = len ns).
  { now rewrite values_length, asarray_size. }
  destruct (J0init_same_size (view h1 self0) (values (asarray J0ref))
              Hn0 Hlen') as [qs [HJ [Hq Hqs]]].
  set (d := if py_eq RBB "JFG"
            then RBB_JFG (fl 10) (lit 5 (-1)) (fl 0)
            else if py_eq RBB "bishop"
            then RBB_bishop (lit 328 (-2)) (fl 1) (- lit 55 (-1))%np
            else RBB_None).
  set (self := with_RBB_dict (with_J0ratio self0 (length h1)) d).
  set (h' := h1 ++ [float64_array qs]).
  assert (Hinit : forall rs' : pylist F,
            __init__ h name Eg TC Gsh Rser area ns rs' (Some J0ref) RBB
              Jext JLC pn beta gamma = (h', self)).
  { intros rs'. unfold __init__. cbn [np_array]. unfold call_J0init.
    fold self0. fold h1. rewrite HJ. cbn [J0ratio set_J0ratio np_array].
    cbn [fst snd set set_item asarray]. unfold self, d, h'.
    destruct (py_eq RBB "JFG"); [|destruct (py_eq RBB "bishop")];
      reflexivity. }
  assert (Hn : n (view h' self) = ndarray (values (asarray ns))).
  { unfold view. cbn [attr_n self with_RBB_dict with_J0ratio self0 n].
    do 2 f_equal. unfold h', h1, array_at.
    rewrite <- app_assoc, app_nth2 by lia. now rewrite Nat.sub_diag. }
  assert (HR : J0ratio (view h' self) = ndarray qs).
  { unfold view.
    cbn [attr_J0ratio self with_RBB_dict with_J0ratio J0ratio].
    f_equal. unfold h'.
    exact (f_equal values (np_array_new h1 (list_float qs))). }
  destruct (J0_same_size (view h' self) Hn HR) as [l [Hl0 [Hll Hnth]]];
    [now rewrite Hq|].
  exists h', self, qs, l.
  split; [exact Hinit|]. split; [exact Hn|]. split; [exact HR|].
  split.
  { change (getattr_J0 h' self) with (Done (J0 (view h' self))).
    now rewrite Hl0. }
  split; [now rewrite Hq|]. split; [now rewrite Hll|].
  intros i d0 Hi. rewrite <- Hl in Hi. split.
  - exact (Hqs i d0 Hi).
  - exact (Hnth i d0 Hi).
Qed.

Lemma init_J0ref_sets_J0ratio_witness :
  exists h' self qs l,
    (forall rs' : pylist float,
       __init__ [] "junc" 1.1%float 25%float 0%float 0%float 1%float
         (list_int [1; 2]%Z) rs'
         (Some (list_float [1e-15; 1e-9]%float)) None
         0.04%float 0%float (-1) 15%float 0%float = (h', self))
    /\ n (view h' self) = ndarray [1; 2]%float
    /\ J0ratio (view h' self) = ndarray qs
    /\ getattr_J0 h' self = Done (ndarray l)
    /\ length qs = 2%nat /\ length l = 2%nat
    /\ forall (i : nat) (d : float), (i < 2)%nat ->
         nth i qs d
         = (1000 * nth i [1e-15; 1e-9] d
            / Libm.pow (Jdb (view h' self) * 1000)
                (1 / nth i [1; 2] d))%float
         /\ nth i l d
            = (Libm.pow (Jdb (view h' self) * 1000) (1 / nth i [1; 2] d)
               * nth i qs d / 1000)%float.
Proof.
  apply (@init_J0ref_sets_J0ratio float Binary64.float_ops [] "junc"
           1.1%float 25%float 0%float 0%float 1%float (list_int [1; 2]%Z)
           (list_float [10; 10]%float)
           (list_float [1e-15; 1e-9]%float) None
           0.04%float 0%float (-1) 15%float 0%float).
  reflexivity.
Defined.

(** [set(area=a)] stores [a] as both [lightarea] and [totalarea], whatever
    the two were, and the photocurrent afterwards is
    [Jext * a / a + JLC], the product and the quotient rounded. *)
Theorem set_area_Jphoto :
  forall (F : Type) (ops : NpFloat F) (h : heap) (self : object) (a : F)
         (ok : reserved "area" = false),
    exists self',
      set (h, self) [kw_float "area" a ok] = ((h, self'), Done tt)
      /\ lightarea (view h self') = a
      /\ totalarea (view h self') = a
      /\ Jphoto (view h self')
         = (attr_Jext self * a / a + attr_JLC self)%np.
Proof.
  intros F ops h self a ok.
  eexists. split; [reflexivity|]. repeat split.
Qed.

Lemma set_area_Jphoto_witness :
  exists self',
    set Examples.junction [kw_float "area" 3%float eq_refl]
    = ((fst Examples.junction, self'), Done tt)
    /\ lightarea (view (fst Examples.junction) self') = 3%float
    /\ totalarea (view (fst Examples.junction) self') = 3%float
    /\ Jphoto (view (fst Examples.junction) self')
       = (0.04 * 3 / 3 + 0)%float.
Proof.
  exact (@set_area_Jphoto float Binary64.float_ops (fst Examples.junction)
           (snd Examples.junction) 3%float eq_refl).
Defined.

(** On binary64 the areas do not always cancel: after
    [set(Jext=0.1, area=3.)] the photocurrent is 0.10000000000000002. *)
Example set_area_rounding :
  Jphoto
    (view (fst Examples.junction)
       (snd (fst (set Examples.junction
                    [kw_float "Jext" 0.1%float eq_refl;
                     kw_float "area" 3%float eq_refl]))))
  = 0.10000000000000002%float.
Proof. vm_compute. reflexivity. Qed.
